(** * api-tester.py: command line, work partitioning, worker loop and report

    A shallow embedding of [fetch_data] and of [main] (the command line,
    lines 70-145, and the run, lines 147-200 of api-tester.py).

    Conventions.
    - Python [int] is [Z]; [//] and [%] are [Z.div] and [Z.modulo]
      (both round towards minus infinity, the remainder takes the sign of
      the divisor), and both raise [ZeroDivisionError] on a zero divisor.
    - Python [float] values (clock readings, delays, time-outs) are exact
      rationals [Q]: binary64 rounding, infinities and NaN are not
      modelled, so sums and quotients of floats are exact here.  The one
      conversion of an [int] to a [float], at line 186, raises
      [OverflowError] as Python does.
    - The HTTP library and the clock are the environment, a [World].
      [session.get] either returns a response or raises an exception of
      the [RequestException] family; [time.sleep] either sleeps or raises
      [ValueError] on a negative length.  What else the two can raise (a
      [ValueError] of the library for a time-out that is not positive, an
      [OverflowError] for a sleep beyond the range of the timer) is not
      modelled: the theorems speak of runs in which it does not happen.
    - The worker threads interleave under an arbitrary schedule; what a
      thread does inside [with print_lock] is one atomic action. *)

From Stdlib Require Import ZArith QArith Bool String List Lia Lqa.
From Stdlib Require Import Ascii Permutation.
From Stdlib.Strings Require Import Byte.
Import ListNotations.

Local Open Scope Z_scope.

(** ** Exceptions and integer arithmetic *)

Inductive exn : Type :=
| ZeroDivisionError
| UnicodeDecodeError
| UnicodeEncodeError
| ValueError
| OverflowError.

(** [a // b] *)
Definition floordiv (a b : Z) : exn + Z :=
  if b =? 0 then inl ZeroDivisionError else inr (a / b).

(** [a % b] *)
Definition pymod (a b : Z) : exn + Z :=
  if b =? 0 then inl ZeroDivisionError else inr (a mod b).

(** [range(n)]: [0, 1, ..., n-1], empty when [n <= 0]. *)
Definition range (n : Z) : list Z :=
  map Z.of_nat (seq 0 (Z.to_nat n)).

(** [sum(l)] over integers. *)
Definition zsum (l : list Z) : Z := fold_right Z.add 0 l.

(** ** Decoding the response body

    [response.content.decode("utf-8")]: the strict UTF-8 decoder.  It accepts
    exactly the well-formed byte sequences (no overlong forms, no
    surrogates, nothing above U+10FFFF) and yields the code points. *)

Definition between (lo hi b : N) : bool := (lo <=? b)%N && (b <=? hi)%N.

(** A continuation byte, 0x80..0xBF. *)
Definition continuation (b : N) : bool := between 128 191 b.

(** The second byte allowed after the lead byte of a 3-byte sequence:
    0xE0 needs 0xA0..0xBF, 0xED needs 0x80..0x9F. *)
Definition second_of_three (b0 b1 : N) : bool :=
  if (b0 =? 224)%N then between 160 191 b1
  else if (b0 =? 237)%N then between 128 159 b1
  else continuation b1.

(** The second byte allowed after the lead byte of a 4-byte sequence:
    0xF0 needs 0x90..0xBF, 0xF4 needs 0x80..0x8F. *)
Definition second_of_four (b0 b1 : N) : bool :=
  if (b0 =? 240)%N then between 144 191 b1
  else if (b0 =? 244)%N then between 128 143 b1
  else continuation b1.

Fixpoint decode_utf8 (bs : list byte) : option (list N) :=
  match bs with
  | [] => Some []
  | x0 :: r0 =>
      let b0 := Byte.to_N x0 in
      if (b0 <? 128)%N then option_map (cons b0) (decode_utf8 r0)
      else
        match r0 with
        | [] => None
        | x1 :: r1 =>
            let b1 := Byte.to_N x1 in
            if between 194 223 b0 then
              if continuation b1
              then option_map (cons ((b0 - 192) * 64 + (b1 - 128))%N)
                              (decode_utf8 r1)
              else None
            else
              match r1 with
              | [] => None
              | x2 :: r2 =>
                  let b2 := Byte.to_N x2 in
                  if between 224 239 b0 then
                    if second_of_three b0 b1 && continuation b2
                    then option_map
                           (cons ((b0 - 224) * 4096 + (b1 - 128) * 64
                                  + (b2 - 128))%N)
                           (decode_utf8 r2)
                    else None
                  else
                    match r2 with
                    | [] => None
                    | x3 :: r3 =>
                        let b3 := Byte.to_N x3 in
                        if between 240 244 b0
                           && second_of_four b0 b1
                           && continuation b2 && continuation b3
                        then option_map
                               (cons ((b0 - 240) * 262144 + (b1 - 128) * 4096
                                      + (b2 - 128) * 64 + (b3 - 128))%N)
                               (decode_utf8 r3)
                        else None
                    end
              end
        end
  end.

(** ** The environment *)

(** What [session.get] gives back: a response (status code and body), or an
    exception of the [requests.exceptions.RequestException] family, which is
    what the library raises for connection, time-out, DNS and TLS failures
    (after its own retries). *)
Inductive reply : Type :=
| Response (status_code : Z) (content : list byte)
| RequestException (e : string).

(** One call as the worker sees it: the clock reading taken before the
    request, what the request gave, the clock reading taken after. *)
Record Exchange : Type := mkExchange {
  clock_before : Q;
  outcome : reply;
  clock_after : Q
}.

Record World : Type := mkWorld {
  (** the exchange of call [call_num] of thread [thread_id] *)
  exchange : Z -> Z -> Exchange;
  (** whether [f.write(text)] on [open(os.devnull, "w")] can encode the
      text in the platform's default encoding *)
  devnull_encodes : list N -> bool;
  (** [time.time()] at lines 164 and 183 *)
  clock_at_start : Q;
  clock_at_end : Q
}.

(** ** What a worker does *)

Inductive connection : Type := KeepAlive | Close.

(** The [timeout] argument of [requests]: a pair is read as
    (connect time-out, read time-out), in that order. *)
Record Timeout : Type := mkTimeout { connect : Q; read : Q }.

Definition timeout_of_tuple (t : Q * Q) : Timeout :=
  {| connect := fst t; read := snd t |}.

Record Request : Type := mkRequest {
  req_url : string;
  req_headers : connection;
  req_timeout : Timeout;
  req_stream : bool
}.

(** The three lines a worker prints; the text layout is not modelled. *)
Inductive line : Type :=
| Success (thread_id call_num status_code : Z) (response_time : Q)
| FailedWithStatusCode (thread_id call_num status_code : Z) (response_time : Q)
| RequestFailed (thread_id call_num : Z) (e : string) (response_time : Q).

(** The visible steps of a worker.  [Record_ l t] is the whole block under
    [with print_lock]: print [l], then [response_times.append(t)]. *)
Inductive action : Type :=
| Get (r : Request)
| Record_ (l : line) (response_time : Q)
| Sleep (seconds : Q).

(** A worker computation: the actions performed so far, and either the
    exception that ended it or its value. *)
Definition W (A : Type) : Type := (list action * (exn + A))%type.

Definition ret {A : Type} (a : A) : W A := ([], inr a).
Definition raise {A : Type} (e : exn) : W A := ([], inl e).
Definition emit (a : action) : W unit := ([a], inr tt).

Definition bind {A B : Type} (m : W A) (k : A -> W B) : W B :=
  match m with
  | (tr, inl e) => (tr, inl e)
  | (tr, inr a) => let (tr', r) := k a in (tr ++ tr', r)
  end.

Declare Scope worker_scope.
Delimit Scope worker_scope with worker.
Notation "m ;; k" := (bind m (fun _ => k))
  (at level 61, right associativity) : worker_scope.

Definition trace {A : Type} (m : W A) : list action := fst m.
Definition exit_status {A : Type} (m : W A) : exn + A := snd m.

(** Lines 46-48: decode the body and write it to the null device. *)
Definition drain_body (w : World) (content : list byte) : W unit :=
  match decode_utf8 content with
  | None => raise UnicodeDecodeError
  | Some text =>
      if devnull_encodes w text then ret tt else raise UnicodeEncodeError
  end.

(** Lines 51-57: the line printed for a response. *)
Definition classify (thread_id call_num status_code : Z) (response_time : Q)
  : line :=
  if status_code =? 200
  then Success thread_id call_num status_code response_time
  else FailedWithStatusCode thread_id call_num status_code response_time.

(** The body of a response has been dealt with: it was not to be read
    ([keep_connects_open]), or it was decoded and written out. *)
Definition drained (w : World) (keep_connects_open : bool)
    (content : list byte) : bool :=
  keep_connects_open
  || match exit_status (drain_body w content) with
     | inr _ => true
     | inl _ => false
     end.

(** [time.sleep(s)] raises [ValueError] on a negative length. *)
Definition sleep (s : Q) : W unit :=
  if Qle_bool 0 s then emit (Sleep s) else raise ValueError.

(** [(t1 - t0) * 1000] *)
Definition milliseconds (t0 t1 : Q) : Q := ((t1 - t0) * 1000)%Q.

(** One iteration of the loop of [fetch_data] (lines 35-66). *)
Definition call (w : World) (url : string) (sleep_time : Q)
    (keep_connects_open reuse_connects : bool) (thread_id : Z)
    (request_time_out connect_time_out : Q) (call_num : Z) : W unit :=
  (let timeout_tuple := (request_time_out, connect_time_out) in
   let headers_struct := if reuse_connects then KeepAlive else Close in
   let x := exchange w thread_id call_num in
   let call_start_time := clock_before x in
   emit (Get {| req_url := url; req_headers := headers_struct;
                req_timeout := timeout_of_tuple timeout_tuple;
                req_stream := false |}) ;;
   match outcome x with
   | Response status_code content =>
       let call_end_time := clock_after x in
       let response_time := milliseconds call_start_time call_end_time in
       (if keep_connects_open then ret tt else drain_body w content) ;;
       emit (Record_ (classify thread_id call_num status_code response_time)
                     response_time)
   | RequestException e =>
       let error_end_time := clock_after x in
       let response_time := milliseconds call_start_time error_end_time in
       emit (Record_ (RequestFailed thread_id call_num e response_time)
                     response_time)
   end ;;
   sleep sleep_time)%worker.

(** The request a worker sends, as [call] builds it. *)
Definition request_of (url : string) (reuse_connects : bool)
    (request_time_out connect_time_out : Q) : Request :=
  {| req_url := url;
     req_headers := if reuse_connects then KeepAlive else Close;
     req_timeout := timeout_of_tuple (request_time_out, connect_time_out);
     req_stream := false |}.

(** The time call [call_num] of thread [thread_id] takes, as the worker
    measures it. *)
Definition elapsed_of (w : World) (thread_id call_num : Z) : Q :=
  milliseconds (clock_before (exchange w thread_id call_num))
               (clock_after (exchange w thread_id call_num)).

(** [for x in l: body(x)] *)
Fixpoint for_each {A : Type} (l : list A) (body : A -> W unit) : W unit :=
  match l with
  | [] => ret tt
  | x :: l' => (body x ;; for_each l' body)%worker
  end.

(** [fetch_data]; the lock, the session and the shared list are the
    environment and the [Record_] actions. *)
Definition fetch_data (w : World) (url : string) (sleep_time : Q)
    (keep_connects_open reuse_connects : bool) (thread_id num_calls : Z)
    (request_time_out connect_time_out : Q) : W unit :=
  for_each (range num_calls)
           (call w url sleep_time keep_connects_open reuse_connects thread_id
                 request_time_out connect_time_out).

Definition is_get (a : action) : bool :=
  match a with Get _ => true | _ => false end.
Definition is_record (a : action) : bool :=
  match a with Record_ _ _ => true | _ => false end.
Definition is_sleep (a : action) : bool :=
  match a with Sleep _ => true | _ => false end.

Definition count (p : action -> bool) (l : list action) : nat :=
  length (filter p l).

(** ** Configuration (the local variables of [main] after parsing) *)

Record Config : Type := mkConfig {
  url : string;
  total_calls : Z;
  num_threads : Z;
  sleep_time : Q;
  request_time_out : Q;
  connect_time_out : Q;
  reuse_connects : bool;
  keep_connects_open : bool
}.

(** ** Threads and the shared state *)

(** A started thread: its arguments [thread_id] and [num_calls], what it
    still has to do, and how it will end ([None]: [fetch_data] returns;
    [Some e]: the thread dies of the uncaught exception [e]). *)
Record Thread : Type := mkThread {
  thread_id : Z;
  num_calls : Z;
  todo : list action;
  dies_of : option exn
}.

Record State : Type := mkState {
  threads : list Thread;
  response_times : list Q;
  printed : list line;
  (** every action performed so far, with the thread that performed it *)
  history : list (Z * action)
}.

Definition fresh (ts : list Thread) : State :=
  {| threads := ts; response_times := []; printed := []; history := [] |}.

(** The effect of one action of thread [i] on the shared objects. *)
Definition perform (i : Z) (a : action) (s : State) : State :=
  match a with
  | Record_ l t =>
      {| threads := threads s;
         response_times := response_times s ++ [t];
         printed := printed s ++ [l];
         history := history s ++ [(i, a)] |}
  | _ =>
      {| threads := threads s;
         response_times := response_times s;
         printed := printed s;
         history := history s ++ [(i, a)] |}
  end.

(** Replace the [k]-th thread. *)
Fixpoint set_thread (k : nat) (t : Thread) (ts : list Thread) : list Thread :=
  match ts, k with
  | [], _ => []
  | _ :: ts', O => t :: ts'
  | t0 :: ts', S k' => t0 :: set_thread k' t ts'
  end.

(** The scheduler lets the [k]-th thread perform its next action; [None]
    when there is no such thread or it has finished. *)
Definition step (k : nat) (s : State) : option State :=
  match nth_error (threads s) k with
  | Some t =>
      match todo t with
      | a :: rest =>
          let s' := perform (thread_id t) a s in
          Some {| threads :=
                    set_thread k {| thread_id := thread_id t;
                                    num_calls := num_calls t;
                                    todo := rest;
                                    dies_of := dies_of t |} (threads s');
                  response_times := response_times s';
                  printed := printed s';
                  history := history s' |}
      | [] => None
      end
  | None => None
  end.

(** A schedule names, turn by turn, the thread that runs; a turn given to
    a thread that cannot run is lost. *)
Fixpoint exec (schedule : list nat) (s : State) : State :=
  match schedule with
  | [] => s
  | k :: schedule' =>
      match step k s with
      | Some s' => exec schedule' s'
      | None => exec schedule' s
      end
  end.

(** Every [thread.join()] returns. *)
Definition joined (s : State) : bool :=
  forallb (fun t => match todo t with [] => true | _ => false end) (threads s).

(** The work left, which every step decreases. *)
Definition remaining (s : State) : nat :=
  fold_right (fun t n => (length (todo t) + n)%nat) O (threads s).

(** How many actions satisfying [p] the threads still have to do, and how
    many have been performed. *)
Definition pending (p : action -> bool) (ts : list Thread) : nat :=
  fold_right (fun t n => (count p (todo t) + n)%nat) O ts.

Definition performed (p : action -> bool) (s : State) : nat :=
  length (filter (fun x => p (snd x)) (history s)).

(** The schedule that runs the threads one after the other. *)
Fixpoint one_by_one (k : nat) (ts : list Thread) : list nat :=
  match ts with
  | [] => []
  | t :: ts' => repeat k (length (todo t)) ++ one_by_one (S k) ts'
  end.

(** ** [main], from line 147 on *)

(** [a / b] on floats *)
Definition truediv (a b : Q) : exn + Q :=
  if Qeq_bool b 0 then inl ZeroDivisionError else inr (a / b)%Q.

(** The conversion of an [int] operand to [float], as [int / float] does
    it first: integers that round to 2^1024 or beyond, that is those of
    magnitude [2^1024 - 2^970] or more, raise [OverflowError]. *)
Definition float_of_int (n : Z) : exn + Q :=
  if 2 ^ 1024 - 2 ^ 970 <=? Z.abs n then inl OverflowError
  else inr (inject_Z n).

(** [sum(l)] on floats *)
Definition qsum (l : list Q) : Q := fold_left Qplus l 0%Q.

(** The four figures printed at lines 193-196. *)
Record Report : Type := mkReport {
  total_thread_count : Z;
  total_time : Q;
  average_response_time : Q;
  requests_per_second : Q
}.

(** Line 170: [calls_per_thread + (1 if i < remainder_calls else 0)] *)
Definition num_calls_this_thread (calls_per_thread remainder_calls i : Z) : Z :=
  calls_per_thread + (if i <? remainder_calls then 1 else 0).

(** Lines 170-175: the thread started for index [i]. *)
Definition start_thread (w : World) (c : Config)
    (calls_per_thread remainder_calls i : Z) : Thread :=
  let n := num_calls_this_thread calls_per_thread remainder_calls i in
  let run :=
    fetch_data w (url c) (sleep_time c) (keep_connects_open c)
               (reuse_connects c) i n
               (request_time_out c) (connect_time_out c) in
  {| thread_id := i;
     num_calls := n;
     todo := trace run;
     dies_of := match exit_status run with inl e => Some e | inr _ => None end |}.

(** Lines 148-176: the quotas and the started threads. *)
Definition start_all (w : World) (c : Config) : exn + State :=
  match floordiv (total_calls c) (num_threads c) with
  | inl e => inl e
  | inr calls_per_thread =>
      match pymod (total_calls c) (num_threads c) with
      | inl e => inl e
      | inr remainder_calls =>
          inr (fresh (map (start_thread w c calls_per_thread remainder_calls)
                          (range (num_threads c))))
      end
  end.

(** Lines 183-196: the figures, from the two clock readings and the shared
    list. *)
Definition summarise (c : Config) (start_time end_time : Q)
    (response_times : list Q) : exn + Report :=
  let total_time := (end_time - start_time)%Q in
  match float_of_int (total_calls c) with
  | inl e => inl e
  | inr calls =>
      match truediv calls total_time with
      | inl e => inl e
      | inr requests_per_second =>
          let average_response_time :=
            match response_times with
            | [] => 0%Q
            | _ :: _ =>
                (qsum response_times
                 / inject_Z (Z.of_nat (length response_times)))%Q
            end in
          inr {| total_thread_count := num_threads c;
                 total_time := total_time;
                 average_response_time := average_response_time;
                 requests_per_second := requests_per_second |}
      end
  end.

(** How a run ends, with the shared state it leaves. *)
Inductive Ending : Type :=
| Raised (e : exn) (s : State)
| Reported (r : Report) (s : State).

(** [main] under a schedule of the worker threads.  [None]: the schedule
    stops before every thread has finished, so the joins have not
    returned yet. *)
Definition main (w : World) (c : Config) (schedule : list nat)
  : option Ending :=
  match start_all w c with
  | inl e => Some (Raised e (fresh []))
  | inr s0 =>
      let s := exec schedule s0 in
      if joined s then
        match summarise c (clock_at_start w) (clock_at_end w)
                        (response_times s) with
        | inl e => Some (Raised e s)
        | inr r => Some (Reported r s)
        end
      else None
  end.

(** [main] when the threads run one after the other. *)
Definition main_one_by_one (w : World) (c : Config) : option Ending :=
  match start_all w c with
  | inl _ => main w c []
  | inr s0 => main w c (one_by_one 0 (threads s0))
  end.

(** ** Sample environments and configurations *)

(** Every call gets the same reply after 10 ms; the run's two clock
    readings are [t0] and [t1]; the null device takes any text. *)
Definition steady_world (r : reply) (t0 t1 : Q) : World :=
  {| exchange := fun _ _ =>
       {| clock_before := 0; outcome := r; clock_after := 1 # 100 |};
     devnull_encodes := fun _ => true;
     clock_at_start := t0;
     clock_at_end := t1 |}.

(** The defaults of [main], with the counts given. *)
Definition sample_config (total threads : Z) : Config :=
  {| url := "http://localhost/";
     total_calls := total;
     num_threads := threads;
     sleep_time := 0;
     request_time_out := 10;
     connect_time_out := 30;
     reuse_connects := false;
     keep_connects_open := false |}.

(** The state [main] starts the threads in ([fresh []] when it raises
    before). *)
Definition started (w : World) (c : Config) : State :=
  match start_all w c with
  | inr s => s
  | inl _ => fresh []
  end.

Definition ok_body : list byte := [x68; x69].          (* b"hi" *)
Definition latin1_body : list byte := [x63; x61; x66; xe9].  (* "cafe" with e-acute, Latin-1 *)

(** ** Observations on traces and states *)

(** The time a printed line shows. *)
Definition time_of_line (l : line) : Q :=
  match l with
  | Success _ _ _ t => t
  | FailedWithStatusCode _ _ _ t => t
  | RequestFailed _ _ _ t => t
  end.

(** A recording whose line shows the time it appends. *)
Definition well_timed (a : action) : Prop :=
  match a with
  | Record_ l t => time_of_line l = t
  | _ => True
  end.

(** The times a list of actions appends to the shared list, in order. *)
Definition times (l : list action) : list Q :=
  flat_map (fun a => match a with Record_ _ t => [t] | _ => [] end) l.

(** The lines a list of actions prints, in order. *)
Definition printed_by (l : list action) : list line :=
  flat_map (fun a => match a with Record_ ln _ => [ln] | _ => [] end) l.

(** The times the threads have still to append. *)
Definition pending_times (ts : list Thread) : list Q :=
  flat_map (fun t => times (todo t)) ts.

(** A reply the [try] block gets through: an exception of the library, or
    a response whose body has been dealt with. *)
Definition handled (w : World) (keep_connects_open : bool) (r : reply) : bool :=
  match r with
  | Response _ content => drained w keep_connects_open content
  | RequestException _ => true
  end.

(** The line that tells what call [call_num] of thread [thread_id] got. *)
Definition line_for (w : World) (thread_id call_num : Z) : line :=
  match outcome (exchange w thread_id call_num) with
  | Response status_code _ =>
      classify thread_id call_num status_code
               (elapsed_of w thread_id call_num)
  | RequestException e =>
      RequestFailed thread_id call_num e (elapsed_of w thread_id call_num)
  end.

(** The thread a printed line names. *)
Definition line_thread (l : line) : Z :=
  match l with
  | Success i _ _ _ => i
  | FailedWithStatusCode i _ _ _ => i
  | RequestFailed i _ _ _ => i
  end.


(** ** The command line (lines 70-145 of [main]) *)

(** [print_help()], line by line. *)
Definition print_help : list string :=
  ["Usage:";
   "  python3 api-tester.py [URL] [arguments]";
   "Required arguments:";
   "  [URL]                   - Server URL.";
   "Optional arguments:";
   "  -totalCalls [value]     - Total number of calls across all threads. Default is 10000.";
   "  -numThreads [value]     - Number of threads. Default is 12.";
   "  -sleepTime [value]      - Sleep time in milliseconds between calls within a thread. Default is 0";
   "  -requestTimeOut [value] - HTTP request timeout in milliseconds. Default is 10000.";
   "  -connectTimeOut [value] - HTTP request timeout in milliseconds. Default is 20000.";
   "  -reuseConnects          - Attempts to reuse the connections if the server allows it.";
   "  -keepConnectsOpen       - Force a new connection with every request (not advised).";
   "Help:";
   "  -? or --help            - Display this help message."]%string.

(** The built-in conversions [int(s)] and [float(s)]; [None] stands for
    [ValueError]. *)
Record Builtins : Type := mkBuiltins {
  py_int : string -> option Z;
  py_float : string -> option Q
}.

(** [s.startswith(prefix)] *)
Definition startswith (s prefix : string) : bool := String.prefix prefix s.

(** [range(0, n, 2)] *)
Definition range_by_two (n : nat) : list nat :=
  map (fun k => (2 * k)%nat) (seq 0 (Nat.div2 (S n))).

(** The local variables of [main] as lines 70-83 and 102 set them. *)
Definition defaults (first_argument : string) : Config :=
  {| url := first_argument;
     total_calls := 10000;
     num_threads := 16;
     sleep_time := 0;
     request_time_out := 10;
     connect_time_out := 10 * 3;
     reuse_connects := false;
     keep_connects_open := false |}.

(** [try: x = conv(args[i+1]) except (ValueError, IndexError): print(msg);
    return] *)
Definition value_after {A : Type} (conv : string -> option A)
    (args : list string) (i : nat) (msg : string) : string + A :=
  match nth_error args (S i) with
  | None => inl msg
  | Some v =>
      match conv v with
      | None => inl msg
      | Some x => inr x
      end
  end.

(** [float(args[i+1]) / 1000] *)
Definition seconds_after (b : Builtins) (args : list string) (i : nat)
    (msg : string) : string + Q :=
  match value_after (py_float b) args i msg with
  | inl m => inl m
  | inr x => inr (x / 1000)%Q
  end.

(** One iteration of the loop at lines 110-145: the option at index [i].
    [inl msg]: the message printed before [main] returns. *)
Definition option_at (b : Builtins) (args : list string) (i : nat)
    (c : Config) : string + Config :=
  match nth_error args i with
  | None => inr c
  | Some a =>
      if (a =? "-totalCalls")%string then
        match value_after (py_int b) args i
                "Error: -totalCalls must be followed by an integer." with
        | inl m => inl m
        | inr n =>
            inr {| url := url c; total_calls := n;
                   num_threads := num_threads c; sleep_time := sleep_time c;
                   request_time_out := request_time_out c;
                   connect_time_out := connect_time_out c;
                   reuse_connects := reuse_connects c;
                   keep_connects_open := keep_connects_open c |}
        end
      else if (a =? "-numThreads")%string then
        match value_after (py_int b) args i
                "Error: -numThreads must be followed by an integer." with
        | inl m => inl m
        | inr n =>
            inr {| url := url c; total_calls := total_calls c;
                   num_threads := n; sleep_time := sleep_time c;
                   request_time_out := request_time_out c;
                   connect_time_out := connect_time_out c;
                   reuse_connects := reuse_connects c;
                   keep_connects_open := keep_connects_open c |}
        end
      else if (a =? "-sleepTime")%string then
        match seconds_after b args i
                "Error: -sleepTime must be followed by an integer." with
        | inl m => inl m
        | inr x =>
            inr {| url := url c; total_calls := total_calls c;
                   num_threads := num_threads c; sleep_time := x;
                   request_time_out := request_time_out c;
                   connect_time_out := connect_time_out c;
                   reuse_connects := reuse_connects c;
                   keep_connects_open := keep_connects_open c |}
        end
      else if (a =? "-requestTimeOut")%string then
        match seconds_after b args i
                "Error: -requestTimeOut must be followed by an integer." with
        | inl m => inl m
        | inr x =>
            inr {| url := url c; total_calls := total_calls c;
                   num_threads := num_threads c; sleep_time := sleep_time c;
                   request_time_out := x;
                   connect_time_out := connect_time_out c;
                   reuse_connects := reuse_connects c;
                   keep_connects_open := keep_connects_open c |}
        end
      else if (a =? "-connectTimeOut")%string then
        match seconds_after b args i
                "Error: -connectTimeOut must be followed by an integer." with
        | inl m => inl m
        | inr x =>
            inr {| url := url c; total_calls := total_calls c;
                   num_threads := num_threads c; sleep_time := sleep_time c;
                   request_time_out := request_time_out c;
                   connect_time_out := x;
                   reuse_connects := reuse_connects c;
                   keep_connects_open := keep_connects_open c |}
        end
      else if (a =? "-reuseConnects")%string then
        inr {| url := url c; total_calls := total_calls c;
               num_threads := num_threads c; sleep_time := sleep_time c;
               request_time_out := request_time_out c;
               connect_time_out := connect_time_out c;
               reuse_connects := true;
               keep_connects_open := keep_connects_open c |}
      else if (a =? "-keepConnectsOpen")%string then
        inr {| url := url c; total_calls := total_calls c;
               num_threads := num_threads c; sleep_time := sleep_time c;
               request_time_out := request_time_out c;
               connect_time_out := connect_time_out c;
               reuse_connects := reuse_connects c;
               keep_connects_open := true |}
      else inr c
  end.

(** The loop over the given indices; a message ends it. *)
Fixpoint options_at (b : Builtins) (args : list string) (indices : list nat)
    (c : Config) : string + Config :=
  match indices with
  | [] => inr c
  | i :: indices' =>
      match option_at b args i c with
      | inl m => inl m
      | inr c' => options_at b args indices' c'
      end
  end.

(** Lines 109-145: [for i in range(0, len(args), 2): ...] *)
Definition parse_options (b : Builtins) (args : list string) (c : Config)
  : string + Config :=
  options_at b args (range_by_two (length args)) c.

(** How the part of [main] before line 147 ends: it returns after printing,
    or it goes on with the configuration. *)
Inductive Startup : Type :=
| Exit (output : list string)
| Run (c : Config).

(** Lines 89-145, on [sys.argv]. *)
Definition parse_argv (b : Builtins) (argv : list string) : Startup :=
  match argv with
  | [] | [_] => Exit ("Error: Not enough arguments provided."%string :: print_help)
  | _ :: first :: args =>
      if ((first =? "-?") || (first =? "--help"))%string then Exit print_help
      else if startswith first "http" then
        match parse_options b args (defaults first) with
        | inl m => Exit [m]
        | inr c => Run c
        end
      else Exit ("Error: [URL] must be the first parameter."%string :: print_help)
  end.

(** The whole of [main]. *)
Inductive ProgramEnd : Type :=
| Exited (output : list string)
| Ran (e : Ending).

Definition main_argv (b : Builtins) (w : World) (argv : list string)
    (schedule : list nat) : option ProgramEnd :=
  match parse_argv b argv with
  | Exit output => Some (Exited output)
  | Run c => option_map Ran (main w c schedule)
  end.

(** The options that take a value, all the options [main] knows, and the
    message printed when the value of an option is missing or not a
    number. *)
Definition valued_options : list string :=
  ["-totalCalls"; "-numThreads"; "-sleepTime"; "-requestTimeOut";
   "-connectTimeOut"]%string.

Definition known_options : list string :=
  valued_options ++ ["-reuseConnects"%string; "-keepConnectsOpen"%string].

Definition value_message (name : string) : string :=
  ("Error: " ++ name ++ " must be followed by an integer.")%string.

(** The conversion that [main] applies to the value of option [name]
    ([int] for the two counts, [float] for the three durations) raises
    [ValueError] on [v]. *)
Definition conversion_rejects (b : Builtins) (name v : string) : bool :=
  if ((name =? "-totalCalls") || (name =? "-numThreads"))%string
  then match py_int b v with None => true | Some _ => false end
  else match py_float b v with None => true | Some _ => false end.

(** A sample of the conversions: unsigned decimal numerals only. *)
Fixpoint decimal (s : string) (acc : Z) : option Z :=
  match s with
  | EmptyString => Some acc
  | String ch s' =>
      let d := Z.of_N (Ascii.N_of_ascii ch) - 48 in
      if (0 <=? d) && (d <=? 9) then decimal s' (10 * acc + d) else None
  end.

Definition decimal_builtins : Builtins :=
  {| py_int := fun s => match s with
                        | EmptyString => None
                        | _ => decimal s 0
                        end;
     py_float := fun s => match s with
                          | EmptyString => None
                          | _ => option_map inject_Z (decimal s 0)
                          end |}.

(** The same sample, with a [float] that also reads the text 1.5. *)
Definition decimal_point_builtins : Builtins :=
  {| py_int := py_int decimal_builtins;
     py_float := fun s => if (s =? "1.5")%string then Some (3 # 2)
                          else py_float decimal_builtins s |}.

(** * Properties *)

(** ** The partition *)

Section Partition.

Variables (w : World) (c : Config).

Lemma range_length (n : Z) : length (range n) = Z.to_nat n.
Proof. unfold range. now rewrite length_map, length_seq. Qed.

Lemma range_bounds (n i : Z) : In i (range n) -> 0 <= i < n.
Proof.
  unfold range. rewrite in_map_iff. intros (k & <- & Hk).
  apply in_seq in Hk. lia.
Qed.

Lemma range_nth_error (n : Z) (k : nat) (i : Z) :
  nth_error (range n) k = Some i -> i = Z.of_nat k /\ Z.of_nat k < n.
Proof.
  unfold range. rewrite nth_error_map. intros H.
  destruct (nth_error (seq 0 (Z.to_nat n)) k) as [j|] eqn:Hj; [|discriminate].
  injection H as <-.
  assert (Hlt : (k < length (seq 0 (Z.to_nat n)))%nat)
    by (apply nth_error_Some; congruence).
  rewrite length_seq in Hlt.
  rewrite nth_error_seq in Hj.
  destruct (Nat.ltb_spec k (Z.to_nat n)); [|lia].
  injection Hj as <-. simpl. lia.
Qed.

Lemma zsum_app (l1 l2 : list Z) : zsum (l1 ++ l2) = zsum l1 + zsum l2.
Proof.
  induction l1 as [|x l1 IH]; simpl; [reflexivity | rewrite IH; lia].
Qed.

(** The first [k] workers carry [k * base] calls plus one extra call for
    each index below the remainder. *)
Lemma zsum_quota_prefix (base r : Z) (k : nat) :
  0 <= r ->
  zsum (map (num_calls_this_thread base r) (map Z.of_nat (seq 0 k)))
  = Z.of_nat k * base + Z.min (Z.of_nat k) r.
Proof.
  intros Hr. induction k as [|k IH].
  - simpl. lia.
  - rewrite seq_S, !map_app, zsum_app, IH, Nat2Z.inj_succ.
    cbn [map zsum fold_right Nat.add]. unfold num_calls_this_thread.
    destruct (Z.ltb_spec (Z.of_nat k) r); lia.
Qed.

Lemma num_calls_start_thread (base r i : Z) :
  num_calls (start_thread w c base r i) = num_calls_this_thread base r i.
Proof. reflexivity. Qed.


(** With a non-zero thread count neither division raises. *)
Lemma start_all_ok :
  num_threads c <> 0 ->
  start_all w c
  = inr (fresh (map (start_thread w c (total_calls c / num_threads c)
                                  (total_calls c mod num_threads c))
                    (range (num_threads c)))).
Proof.
  intros H. unfold start_all, floordiv, pymod.
  destruct (Z.eqb_spec (num_threads c) 0); [contradiction | reflexivity].
Qed.

Lemma quotas_of_start_all (s : State) :
  num_threads c <> 0 ->
  start_all w c = inr s ->
  map num_calls (threads s)
  = map (num_calls_this_thread (total_calls c / num_threads c)
               (total_calls c mod num_threads c))
        (range (num_threads c)).
Proof.
  intros H Hs. rewrite start_all_ok in Hs by assumption.
  injection Hs as <-. simpl. rewrite map_map. reflexivity.
Qed.

Lemma quotas_sum (s : State) :
  1 <= num_threads c ->
  start_all w c = inr s ->
  zsum (map num_calls (threads s)) = total_calls c.
Proof.
  intros Hn Hs. rewrite (quotas_of_start_all s) by (assumption || lia).
  pose proof (Z.mod_pos_bound (total_calls c) (num_threads c) ltac:(lia))
    as [Hr0 Hr1].
  unfold range. rewrite zsum_quota_prefix by assumption.
  rewrite Z2Nat.id by lia.
  rewrite (Z.div_mod (total_calls c) (num_threads c)) at 3 by lia. lia.
Qed.

(** C1. For every [total_calls >= 0] and [num_threads >= 1] the threads
    are started, and the quotas they are started with ([base] plus one
    for each index below the remainder) add up to [total_calls]. *)
Theorem quotas_sum_to_total_calls :
  0 <= total_calls c -> 1 <= num_threads c ->
  exists s,
    start_all w c = inr s
    /\ map num_calls (threads s)
       = map (fun i => total_calls c / num_threads c
                       + (if i <? total_calls c mod num_threads c
                          then 1 else 0))
             (range (num_threads c))
    /\ zsum (map num_calls (threads s)) = total_calls c.
Proof.
  intros _ Hn. eexists. split; [apply start_all_ok; lia|].
  split.
  - apply quotas_of_start_all; [lia | apply start_all_ok; lia].
  - apply quotas_sum; [assumption | apply start_all_ok; lia].
Qed.

(** C7. For every [total_calls >= 0] and [num_threads >= 1] there are
    [num_threads] workers, worker [i] (counted from 0) is started with
    [base + 1] calls when [i < remainder] and with [base] calls
    otherwise, and two quotas never differ by more than 1. *)
Theorem quota_of_each_worker :
  0 <= total_calls c -> 1 <= num_threads c ->
  exists s,
    start_all w c = inr s
    /\ Z.of_nat (length (threads s)) = num_threads c
    /\ (forall (k : nat) (t : Thread),
           nth_error (threads s) k = Some t ->
           thread_id t = Z.of_nat k
           /\ num_calls t
              = if Z.of_nat k <? total_calls c mod num_threads c
                then total_calls c / num_threads c + 1
                else total_calls c / num_threads c)
    /\ (forall t t' : Thread,
           In t (threads s) -> In t' (threads s) ->
           Z.abs (num_calls t - num_calls t') <= 1).
Proof.
  intros _ Hn. eexists. split; [apply start_all_ok; lia|]. simpl.
  split; [|split].
  - rewrite length_map, range_length. lia.
  - intros k t Hk. rewrite nth_error_map in Hk.
    destruct (nth_error (range (num_threads c)) k) as [i|] eqn:Hi;
      [|discriminate].
    injection Hk as <-. apply range_nth_error in Hi as [-> _].
    split; [reflexivity|]. rewrite num_calls_start_thread.
    unfold num_calls_this_thread.
    destruct (Z.of_nat k <? total_calls c mod num_threads c); lia.
  - intros t t' Ht Ht'.
    apply in_map_iff in Ht as (i & <- & _).
    apply in_map_iff in Ht' as (j & <- & _).
    rewrite !num_calls_start_thread. unfold num_calls_this_thread.
    destruct (i <? total_calls c mod num_threads c),
             (j <? total_calls c mod num_threads c); lia.
Qed.

End Partition.

(** ** The worker loop *)

Lemma bind_returns {A B : Type} (m : W A) (k : A -> W B) (b : B) :
  exit_status (bind m k) = inr b ->
  exists a, exit_status m = inr a
            /\ exit_status (k a) = inr b
            /\ trace (bind m k) = trace m ++ trace (k a).
Proof.
  destruct m as [tr [e|a]]; simpl; [discriminate|].
  destruct (k a) as [tr' r] eqn:Hk. simpl. intros ->.
  exists a. rewrite Hk. auto.
Qed.

Lemma bind_raises {A B : Type} (m : W A) (k : A -> W B) (e : exn) :
  exit_status m = inl e ->
  exit_status (bind m k) = inl e /\ trace (bind m k) = trace m.
Proof. destruct m as [tr [e'|a]]; simpl; [intros [= ->]; auto | discriminate]. Qed.

Lemma bind_trace {A B : Type} (m : W A) (k : A -> W B) :
  trace (bind m k)
  = trace m ++ match exit_status m with
               | inl _ => []
               | inr a => trace (k a)
               end.
Proof.
  destruct m as [tr [e|a]]; simpl; [now rewrite app_nil_r|].
  now destruct (k a).
Qed.

Lemma count_app (p : action -> bool) (l1 l2 : list action) :
  count p (l1 ++ l2) = (count p l1 + count p l2)%nat.
Proof. unfold count. now rewrite filter_app, length_app. Qed.

Lemma for_each_returns {A : Type} (body : A -> W unit) (l : list A) :
  exit_status (for_each l body) = inr tt ->
  Forall (fun x => exit_status (body x) = inr tt) l
  /\ trace (for_each l body) = flat_map (fun x => trace (body x)) l.
Proof.
  induction l as [|x l IH]; simpl; intros H; [auto|].
  apply bind_returns in H as ([] & Hx & Hl & ->).
  destruct (IH Hl) as [Hall ->]. auto.
Qed.

(** However the loop ends, it has done no more of [p] than its iterations
    can do. *)
Lemma for_each_count_le {A : Type} (p : action -> bool) (body : A -> W unit)
    (n : nat) (l : list A) :
  (forall x, (count p (trace (body x)) <= n)%nat) ->
  (count p (trace (for_each l body)) <= n * length l)%nat.
Proof.
  intros Hb. induction l as [|x l IH]; simpl; [unfold count; simpl; lia|].
  rewrite bind_trace, count_app. specialize (Hb x).
  destruct (exit_status (body x)); [unfold count at 2; simpl|]; lia.
Qed.

Lemma count_flat_map {A : Type} (p : action -> bool) (f : A -> list action)
    (n : nat) (l : list A) :
  Forall (fun x => count p (f x) = n) l ->
  count p (flat_map f l) = (n * length l)%nat.
Proof.
  induction 1 as [|x l Hx _ IH]; simpl; [unfold count; simpl; lia|].
  rewrite count_app, Hx, IH. lia.
Qed.

Section Worker.

Variables (w : World) (u : string) (delay : Q) (keep reuse : bool)
          (tid : Z) (request_t connect_t : Q).

Local Notation "'request_sent'" := (request_of u reuse request_t connect_t).
Local Notation "'elapsed'" := (elapsed_of w tid).

Ltac call_cases n :=
  unfold call, drain_body, sleep;
  destruct (outcome (exchange w tid n)) as [st body|msg];
  try destruct keep;
  try destruct (decode_utf8 _) as [text|];
  try destruct (devnull_encodes w _);
  destruct (Qle_bool 0 delay).

(** A call sends one request whatever follows. *)
Lemma call_sends_once (n : Z) :
  count is_get (trace (call w u delay keep reuse tid request_t connect_t n))
  = 1%nat.
Proof. call_cases n; reflexivity. Qed.

Lemma call_records_at_most_once (n : Z) :
  (count is_record
         (trace (call w u delay keep reuse tid request_t connect_t n))
   <= 1)%nat.
Proof. call_cases n; cbn; lia. Qed.

(** A call that returns has sent the request, recorded one time under the
    lock and slept, in this order. *)
Lemma call_returns (n : Z) :
  exit_status (call w u delay keep reuse tid request_t connect_t n) = inr tt ->
  exists l,
    trace (call w u delay keep reuse tid request_t connect_t n)
    = [Get request_sent; Record_ l (elapsed n); Sleep delay].
Proof.
  unfold elapsed_of, request_of.
  call_cases n; cbn; intros H; try discriminate H; eexists; reflexivity.
Qed.

(** A response whose body has been dealt with is classified by its status
    code and recorded, whether or not the sleep that follows raises. *)
Lemma call_on_response (n st : Z) (body : list byte) :
  outcome (exchange w tid n) = Response st body ->
  drained w keep body = true ->
  call w u delay keep reuse tid request_t connect_t n
  = ([Get request_sent; Record_ (classify tid n st (elapsed n)) (elapsed n)]
       ++ trace (sleep delay),
     exit_status (sleep delay)).
Proof.
  intros Hx Hd. unfold call, drained, elapsed_of, request_of in *.
  rewrite Hx. destruct keep; simpl in *.
  - destruct (sleep delay) as [tr r]. reflexivity.
  - destruct (drain_body w body) as [tr [e|[]]] eqn:Hb; simpl in Hd;
      [discriminate|].
    assert (tr = []) as ->.
    { unfold drain_body in Hb. destruct (decode_utf8 body);
        [destruct (devnull_encodes w l)|]; now inversion Hb. }
    destruct (sleep delay) as [tr r]. reflexivity.
Qed.

(** A transport failure is recorded as well. *)
Lemma call_on_exception (n : Z) (msg : string) :
  outcome (exchange w tid n) = RequestException msg ->
  call w u delay keep reuse tid request_t connect_t n
  = ([Get request_sent; Record_ (RequestFailed tid n msg (elapsed n)) (elapsed n)]
       ++ trace (sleep delay),
     exit_status (sleep delay)).
Proof.
  intros Hx. unfold call, elapsed_of, request_of. rewrite Hx.
  destruct (sleep delay) as [tr r]. reflexivity.
Qed.

(** A worker that returns has gone through [Get; Record_; Sleep] once for
    each call of its quota. *)
Lemma fetch_data_returns (q : Z) :
  exit_status (fetch_data w u delay keep reuse tid q request_t connect_t)
  = inr tt ->
  exists ls : list line,
    length ls = Z.to_nat q
    /\ trace (fetch_data w u delay keep reuse tid q request_t connect_t)
       = flat_map (fun nl => [Get request_sent;
                              Record_ (snd nl) (elapsed (fst nl));
                              Sleep delay])
                  (combine (range q) ls).
Proof.
  unfold fetch_data. rewrite <- (range_length q).
  induction (range q) as [|n l IH]; simpl; intros H.
  - exists []. auto.
  - apply bind_returns in H as ([] & Hn & Hl & ->).
    destruct (call_returns n Hn) as [ln ->].
    destruct (IH Hl) as (ls & Hlen & ->).
    exists (ln :: ls). simpl. auto.
Qed.

Lemma fetch_data_returns_counts (q : Z) :
  exit_status (fetch_data w u delay keep reuse tid q request_t connect_t)
  = inr tt ->
  let tr := trace (fetch_data w u delay keep reuse tid q request_t connect_t) in
  count is_get tr = Z.to_nat q
  /\ count is_record tr = Z.to_nat q
  /\ count is_sleep tr = Z.to_nat q.
Proof.
  intros H. destruct (fetch_data_returns q H) as (ls & Hlen & ->). simpl.
  assert (Hc : length (combine (range q) ls) = Z.to_nat q)
    by (rewrite length_combine, range_length; lia).
  rewrite !(count_flat_map _ _ 1), Hc;
    [lia | apply Forall_forall; reflexivity ..].
Qed.

(** Whether or not the worker returns, it sends at most [num_calls]
    requests and records at most that many times. *)
Lemma fetch_data_bounds (q : Z) :
  let tr := trace (fetch_data w u delay keep reuse tid q request_t connect_t) in
  (count is_get tr <= Z.to_nat q)%nat /\ (count is_record tr <= Z.to_nat q)%nat.
Proof.
  simpl. unfold fetch_data. rewrite <- (range_length q). split.
  - rewrite <- (Nat.mul_1_l (length (range q))).
    apply for_each_count_le. intros n. now rewrite call_sends_once.
  - rewrite <- (Nat.mul_1_l (length (range q))).
    apply for_each_count_le. intros n. apply call_records_at_most_once.
Qed.

End Worker.

Lemma for_each_Forall {A : Type} (P : action -> Prop) (body : A -> W unit)
    (l : list A) :
  (forall x, Forall P (trace (body x))) ->
  Forall P (trace (for_each l body)).
Proof.
  intros Hb. induction l as [|x l IH]; simpl; [constructor|].
  rewrite bind_trace. apply Forall_app. split; [apply Hb|].
  destruct (exit_status (body x)); [constructor | exact IH].
Qed.

(** C4. Every GET that [fetch_data] issues carries the configured
    per-request time-out in the connect slot of the library's time-out
    pair and the configured per-connection time-out in its read slot: the
    request time-out bounds connection establishment and the connection
    time-out bounds the wait for the response, the reverse of what the
    two settings are documented to do. *)
Theorem get_timeout_slots :
  forall (w : World) (url : string) (sleep_time : Q)
         (keep_connects_open reuse_connects : bool) (thread_id num_calls : Z)
         (request_time_out connect_time_out : Q),
    Forall (fun a =>
              match a with
              | Get r => connect (req_timeout r) = request_time_out
                         /\ read (req_timeout r) = connect_time_out
              | _ => True
              end)
           (trace (fetch_data w url sleep_time keep_connects_open
                              reuse_connects thread_id num_calls
                              request_time_out connect_time_out)).
Proof.
  intros w u delay keep reuse tid q rto cto.
  unfold fetch_data. apply for_each_Forall. intros n.
  unfold call, drain_body, sleep.
  destruct (outcome (exchange w tid n));
    try destruct keep;
    try destruct (decode_utf8 _);
    try destruct (devnull_encodes w _);
    destruct (Qle_bool 0 delay);
    cbn; repeat constructor.
Qed.

(** With the defaults (request time-out 10 s, connection time-out 30 s) the
    connection gets 10 s and the response 30 s. *)
Example default_timeouts_on_the_wire :
  map (fun a => match a with Get r => Some (req_timeout r) | _ => None end)
      (filter is_get
         (trace (fetch_data (steady_world (Response 200 ok_body) 0 1)
                            "http://localhost/" 0 false false 0 1 10 30)))
  = [Some {| connect := 10; read := 30 |}].
Proof. reflexivity. Qed.

(** C5 (as stated, refuted). A worker with a quota of one call, whose call
    succeeds, sleeps once, not [max(1 - 1, 0) = 0] times. *)
Lemma single_call_still_sleeps :
  exit_status (fetch_data (steady_world (Response 200 ok_body) 0 1)
                          "http://localhost/" 0 false false 0 1 10 30)
  = inr tt
  /\ Z.of_nat
       (count is_sleep
          (trace (fetch_data (steady_world (Response 200 ok_body) 0 1)
                             "http://localhost/" 0 false false 0 1 10 30)))
     <> Z.max (1 - 1) 0.
Proof. split; [reflexivity | vm_compute; discriminate]. Qed.

(** C5 (amended). The sleep follows every call, the last one included: a
    worker with quota [q] that returns has slept exactly [max(q, 0)]
    times, each time for the configured delay, and when [q >= 1] the
    sleep is the last thing it does. *)
Theorem sleeps_after_every_call :
  forall (w : World) (url : string) (sleep_time : Q)
         (keep_connects_open reuse_connects : bool) (thread_id num_calls : Z)
         (request_time_out connect_time_out : Q),
    exit_status (fetch_data w url sleep_time keep_connects_open
                            reuse_connects thread_id num_calls
                            request_time_out connect_time_out) = inr tt ->
    Z.of_nat
      (count is_sleep
         (trace (fetch_data w url sleep_time keep_connects_open
                            reuse_connects thread_id num_calls
                            request_time_out connect_time_out)))
    = Z.max num_calls 0
    /\ filter is_sleep
         (trace (fetch_data w url sleep_time keep_connects_open
                            reuse_connects thread_id num_calls
                            request_time_out connect_time_out))
       = repeat (Sleep sleep_time) (Z.to_nat num_calls)
    /\ (1 <= num_calls ->
        exists before,
          trace (fetch_data w url sleep_time keep_connects_open
                            reuse_connects thread_id num_calls
                            request_time_out connect_time_out)
          = before ++ [Sleep sleep_time]).
Proof.
  intros w url sleep_time keep reuse tid q rto cto H.
  destruct (fetch_data_returns_counts _ _ _ _ _ _ _ _ _ H) as (_ & _ & Hs).
  split; [rewrite Hs; lia|].
  destruct (fetch_data_returns _ _ _ _ _ _ _ _ _ H) as (ls & Hlen & ->).
  assert (Hc : length (combine (range q) ls) = Z.to_nat q)
    by (rewrite length_combine, range_length; lia).
  rewrite <- Hc. clear H Hs Hlen. split.
  - clear Hc. induction (combine (range q) ls) as [|x l IH]; simpl;
      [reflexivity | now rewrite IH].
  - intros Hq.
    destruct (combine (range q) ls) as [|x l] using rev_ind;
      [simpl in Hc; lia|].
    rewrite flat_map_app. cbn [flat_map]. rewrite app_nil_r.
    eexists (_ ++ [_; _]). rewrite <- app_assoc. reflexivity.
Qed.

(** C8 (what the code does). An exchange completes with status 404 and
    the Latin-1 bytes of "cafe" with an acute accent as its body; one
    worker, one call, bodies are read.  The body does not decode and
    [UnicodeDecodeError] leaves the call before the lines that classify
    and record: no line is printed, failed-status or other, nothing goes
    on the shared list, and the average reported is that of an empty
    list. *)
Theorem undecodable_response_not_classified :
  call (steady_world (Response 404 latin1_body) 0 1)
       "http://localhost/" 0 false false 0 10 30 0
  = ([Get (request_of "http://localhost/" false 10 30)],
     inl UnicodeDecodeError)
  /\ exists (r : Report) (s : State),
       main_one_by_one (steady_world (Response 404 latin1_body) 0 1)
                       (sample_config 1 1)
       = Some (Reported r s)
       /\ performed is_get s = 1%nat
       /\ printed s = []
       /\ response_times s = []
       /\ average_response_time r = 0%Q.
Proof.
  split; [reflexivity|].
  do 2 eexists. split; [vm_compute; reflexivity | repeat split].
Qed.

(** ** The scheduler *)

Lemma threads_perform (i : Z) (a : action) (s : State) :
  threads (perform i a s) = threads s.
Proof. destruct a; reflexivity. Qed.

Lemma history_perform (i : Z) (a : action) (s : State) :
  history (perform i a s) = history s ++ [(i, a)].
Proof. destruct a; reflexivity. Qed.

Lemma response_times_perform (i : Z) (a : action) (s : State) :
  length (response_times (perform i a s))
  = (length (response_times s) + if is_record a then 1 else 0)%nat.
Proof. destruct a; simpl; rewrite ?length_app; simpl; lia. Qed.

Lemma performed_perform (p : action -> bool) (i : Z) (a : action) (s : State) :
  performed p (perform i a s)
  = (performed p s + if p a then 1 else 0)%nat.
Proof.
  unfold performed. rewrite history_perform, filter_app, length_app. simpl.
  destruct (p a); reflexivity.
Qed.

Lemma count_cons (p : action -> bool) (a : action) (l : list action) :
  count p (a :: l) = ((if p a then 1 else 0) + count p l)%nat.
Proof. unfold count. simpl. destruct (p a); reflexivity. Qed.

Lemma pending_set_thread (p : action -> bool) (t t' : Thread) :
  forall (ts : list Thread) (k : nat),
    nth_error ts k = Some t ->
    (pending p (set_thread k t' ts) + count p (todo t)
     = pending p ts + count p (todo t'))%nat.
Proof.
  induction ts as [|t0 ts IH]; intros [|k] H; simpl in *; try discriminate.
  - injection H as ->. lia.
  - specialize (IH k H). lia.
Qed.

Lemma nth_error_set_thread (t' : Thread) :
  forall (ts : list Thread) (k : nat) (t : Thread),
    nth_error ts k = Some t -> nth_error (set_thread k t' ts) k = Some t'.
Proof.
  induction ts as [|t0 ts IH]; intros [|k] t H; simpl in *;
    try discriminate; eauto.
Qed.

Lemma set_thread_twice (t' t'' : Thread) :
  forall (ts : list Thread) (k : nat),
    set_thread k t'' (set_thread k t' ts) = set_thread k t'' ts.
Proof.
  induction ts as [|t0 ts IH]; intros [|k]; simpl; try reflexivity.
  now rewrite IH.
Qed.

Lemma set_thread_middle (t t' : Thread) (before after : list Thread) :
  set_thread (length before) t' (before ++ t :: after)
  = before ++ t' :: after.
Proof. induction before as [|t0 before IH]; simpl; [|rewrite IH]; reflexivity. Qed.

(** What one step changes. *)
Lemma step_inv (k : nat) (s s' : State) :
  step k s = Some s' ->
  exists (t : Thread) (a : action) (rest : list action),
    nth_error (threads s) k = Some t
    /\ todo t = a :: rest
    /\ threads s'
       = set_thread k {| thread_id := thread_id t; num_calls := num_calls t;
                         todo := rest; dies_of := dies_of t |} (threads s)
    /\ history s' = history s ++ [(thread_id t, a)]
    /\ length (response_times s')
       = (length (response_times s) + if is_record a then 1 else 0)%nat
    /\ forall p, performed p s' = (performed p s + if p a then 1 else 0)%nat.
Proof.
  unfold step. destruct (nth_error (threads s) k) as [t|]; [|discriminate].
  destruct (todo t) as [|a rest] eqn:Ht; [discriminate|].
  intros [= <-]. exists t, a, rest. simpl.
  repeat split; auto.
  - now rewrite threads_perform.
  - apply history_perform.
  - apply response_times_perform.
  - intros p. exact (performed_perform p (thread_id t) a s).
Qed.

(** A step moves one action from what is pending to what is performed. *)
Lemma step_conserves (p : action -> bool) (k : nat) (s s' : State) :
  step k s = Some s' ->
  (performed p s' + pending p (threads s')
   = performed p s + pending p (threads s))%nat.
Proof.
  intros H. apply step_inv in H as (t & a & rest & Hk & Ht & -> & _ & _ & Hp).
  rewrite Hp.
  pose proof (pending_set_thread p t
                {| thread_id := thread_id t; num_calls := num_calls t;
                   todo := rest; dies_of := dies_of t |} _ _ Hk) as E.
  rewrite Ht, count_cons in E. simpl in E. lia.
Qed.

Lemma step_records (k : nat) (s s' : State) :
  step k s = Some s' ->
  length (response_times s) = performed is_record s ->
  length (response_times s') = performed is_record s'.
Proof.
  intros H E. apply step_inv in H as (t & a & rest & _ & _ & _ & _ & Hr & Hp).
  rewrite Hr, Hp, E. reflexivity.
Qed.

Lemma step_decreases (k : nat) (s s' : State) :
  step k s = Some s' -> (remaining s' < remaining s)%nat.
Proof.
  intros H. apply step_inv in H as (t & a & rest & Hk & Ht & Hs & _).
  unfold remaining. rewrite Hs. clear Hs. revert k Hk.
  induction (threads s) as [|t0 ts IH]; intros [|k] Hk; simpl in *;
    try discriminate.
  - injection Hk as ->. rewrite Ht. simpl. lia.
  - specialize (IH k Hk). lia.
Qed.

(** Over a whole schedule. *)
Lemma exec_conserves (p : action -> bool) (schedule : list nat) :
  forall s : State,
    (performed p (exec schedule s) + pending p (threads (exec schedule s))
     = performed p s + pending p (threads s))%nat.
Proof.
  induction schedule as [|k schedule IH]; intros s; simpl; [reflexivity|].
  destruct (step k s) as [s'|] eqn:Hs; [|apply IH].
  rewrite IH. eapply step_conserves; eassumption.
Qed.

Lemma exec_records (schedule : list nat) :
  forall s : State,
    length (response_times s) = performed is_record s ->
    length (response_times (exec schedule s))
    = performed is_record (exec schedule s).
Proof.
  induction schedule as [|k schedule IH]; intros s E; simpl; [assumption|].
  destruct (step k s) as [s'|] eqn:Hs; [|now apply IH].
  apply IH. eapply step_records; eassumption.
Qed.

Lemma exec_app (s1 s2 : list nat) (s : State) :
  exec (s1 ++ s2) s = exec s2 (exec s1 s).
Proof.
  revert s. induction s1 as [|k s1 IH]; intros s; simpl; [reflexivity|].
  destruct (step k s); apply IH.
Qed.

Lemma joined_nothing_pending (p : action -> bool) (s : State) :
  joined s = true -> pending p (threads s) = O.
Proof.
  unfold joined. induction (threads s) as [|t ts IH]; simpl; [reflexivity|].
  destruct (todo t); simpl; [intros H; now rewrite IH | discriminate].
Qed.

(** When every thread has joined, the shared list holds one entry for
    each [Record_] the threads had to do, whatever the schedule was. *)
Lemma joined_all_recorded (schedule : list nat) (ts : list Thread) :
  joined (exec schedule (fresh ts)) = true ->
  length (response_times (exec schedule (fresh ts))) = pending is_record ts
  /\ performed is_get (exec schedule (fresh ts)) = pending is_get ts.
Proof.
  intros J.
  pose proof (exec_conserves is_record schedule (fresh ts)) as Er.
  pose proof (exec_conserves is_get schedule (fresh ts)) as Eg.
  rewrite (joined_nothing_pending is_record _ J) in Er.
  rewrite (joined_nothing_pending is_get _ J) in Eg.
  rewrite exec_records by reflexivity.
  change (performed is_record (fresh ts)) with O in Er.
  change (performed is_get (fresh ts)) with O in Eg.
  change (threads (fresh ts)) with ts in Er, Eg. lia.
Qed.

(** Running one thread to its end. *)
Lemma exec_one_thread (k : nat) :
  forall (n : nat) (s : State) (t : Thread),
    nth_error (threads s) k = Some t ->
    length (todo t) = n ->
    threads (exec (repeat k n) s)
    = set_thread k {| thread_id := thread_id t; num_calls := num_calls t;
                      todo := []; dies_of := dies_of t |} (threads s).
Proof.
  induction n as [|n IH]; intros s t Hk Hn; simpl.
  - destruct t as [i q td d]. simpl in *.
    apply length_zero_iff_nil in Hn. subst td.
    clear - Hk. revert k Hk.
    induction (threads s) as [|t0 ts IH]; intros [|k] Hk; simpl in *;
      try discriminate; [congruence | now rewrite <- IH].
  - destruct (step k s) as [s'|] eqn:Hs.
    + apply step_inv in Hs as (t0 & a & rest & Hk0 & Ht0 & Hs' & _).
      rewrite Hk in Hk0. injection Hk0 as <-.
      rewrite (IH s' _ (eq_ind_r (fun l => nth_error l k = Some _)
                                 (nth_error_set_thread _ _ _ _ Hk) Hs')).
      * rewrite Hs', set_thread_twice. reflexivity.
      * simpl. rewrite Ht0 in Hn. simpl in Hn. lia.
    + unfold step in Hs. rewrite Hk in Hs.
      destruct (todo t); [discriminate Hn | discriminate Hs].
Qed.

(** Running the threads one after the other ends with all of them joined:
    there is always a schedule under which [main] gets to its report. *)
Lemma one_by_one_joins :
  forall (after before : list Thread) (s : State),
    threads s = before ++ after ->
    forallb (fun t => match todo t with [] => true | _ => false end) before
    = true ->
    joined (exec (one_by_one (length before) after) s) = true.
Proof.
  induction after as [|t after IH]; intros before s Hs Hb; simpl.
  - unfold joined. rewrite Hs, app_nil_r. exact Hb.
  - rewrite exec_app.
    assert (Hk : nth_error (threads s) (length before) = Some t).
    { rewrite Hs, nth_error_app2, Nat.sub_diag by lia. reflexivity. }
    pose proof (exec_one_thread _ _ s t Hk eq_refl) as E.
    rewrite Hs, set_thread_middle in E.
    specialize (IH (before ++ [{| thread_id := thread_id t;
                                  num_calls := num_calls t;
                                  todo := []; dies_of := dies_of t |}])
                   (exec (repeat (length before) (length (todo t))) s)).
    rewrite length_app, Nat.add_1_r in IH. apply IH.
    + rewrite E, <- app_assoc. reflexivity.
    + rewrite forallb_app, Hb. reflexivity.
Qed.

(** [main] under that schedule always ends, with a report or an exception. *)
Lemma main_one_by_one_ends (w : World) (c : Config) :
  main_one_by_one w c <> None.
Proof.
  unfold main_one_by_one, main.
  destruct (start_all w c) as [e|s0]; [discriminate|].
  pose proof (one_by_one_joins (threads s0) [] s0 eq_refl eq_refl) as J.
  simpl in J. rewrite J.
  destruct (summarise _ _ _ _); discriminate.
Qed.

(** ** The run *)

Lemma exec_idle (schedule : list nat) (s : State) :
  joined s = true -> exec schedule s = s.
Proof.
  intros J. induction schedule as [|k schedule IH]; simpl; [reflexivity|].
  assert (step k s = None) as ->; [|exact IH].
  unfold step. destruct (nth_error (threads s) k) as [t|] eqn:Hk;
    [|reflexivity].
  apply nth_error_In in Hk. unfold joined in J.
  rewrite forallb_forall in J. specialize (J t Hk).
  destruct (todo t); [reflexivity | discriminate].
Qed.

Lemma pending_cons (p : action -> bool) (t : Thread) (ts : list Thread) :
  pending p (t :: ts) = (count p (todo t) + pending p ts)%nat.
Proof. reflexivity. Qed.

Lemma zsum_cons (x : Z) (l : list Z) : zsum (x :: l) = x + zsum l.
Proof. reflexivity. Qed.

Lemma started_thread_returns (w : World) (c : Config) (base r i : Z) :
  dies_of (start_thread w c base r i) = None ->
  exit_status (fetch_data w (url c) (sleep_time c) (keep_connects_open c)
                          (reuse_connects c) i
                          (num_calls_this_thread base r i)
                          (request_time_out c) (connect_time_out c))
  = inr tt.
Proof.
  unfold start_thread. simpl.
  destruct (exit_status _) as [e|[]]; [discriminate | reflexivity].
Qed.

(** Threads that all return have as many requests and as many recordings
    to do as their quotas say. *)
Lemma pending_of_started (w : World) (c : Config) (base r : Z) (l : list Z) :
  (forall i, 0 <= num_calls_this_thread base r i) ->
  Forall (fun t => dies_of t = None) (map (start_thread w c base r) l) ->
  Z.of_nat (pending is_get (map (start_thread w c base r) l))
  = zsum (map num_calls (map (start_thread w c base r) l))
  /\ Z.of_nat (pending is_record (map (start_thread w c base r) l))
     = zsum (map num_calls (map (start_thread w c base r) l)).
Proof.
  intros Hq. induction l as [|i l IH]; intros H; [auto|].
  rewrite !map_cons in *. inversion H as [|t ts Hi Hl]; subst.
  destruct (IH Hl) as [IHg IHr].
  pose proof (fetch_data_returns_counts _ _ _ _ _ _ _ _ _
                (started_thread_returns w c base r i Hi)) as (Eg & Er & _).
  change (trace (fetch_data _ _ _ _ _ _ _ _ _))
    with (todo (start_thread w c base r i)) in Eg, Er.
  change (num_calls_this_thread base r i)
    with (num_calls (start_thread w c base r i)) in Eg, Er, Hq.
  specialize (Hq i).
  rewrite !pending_cons, zsum_cons, !Nat2Z.inj_add, IHg, IHr, Eg, Er.
  rewrite Z2Nat.id by exact Hq. auto.
Qed.

(** C2. In a run with [total_calls >= 0] and [num_threads >= 1] in which
    every worker goes through its quota, once all threads have joined the
    shared list holds exactly [total_calls] entries, under every schedule
    of the threads, and exactly [total_calls] requests were sent: one
    entry for each executed call. *)
Theorem every_call_recorded_once :
  forall (w : World) (c : Config) (schedule : list nat) (s0 : State),
    0 <= total_calls c -> 1 <= num_threads c ->
    start_all w c = inr s0 ->
    Forall (fun t => dies_of t = None) (threads s0) ->
    joined (exec schedule s0) = true ->
    Z.of_nat (length (response_times (exec schedule s0))) = total_calls c
    /\ Z.of_nat (performed is_get (exec schedule s0)) = total_calls c
    /\ Z.of_nat (performed is_record (exec schedule s0)) = total_calls c.
Proof.
  intros w c schedule s0 Ht Hn H0 Hret J.
  pose proof (quotas_sum w c s0 Hn H0) as Hsum.
  rewrite start_all_ok in H0 by lia. injection H0 as <-.
  cbn [threads fresh] in Hret, Hsum.
  destruct (joined_all_recorded _ _ J) as [Er Eg].
  rewrite <- (exec_records schedule _
                (eq_refl : length (response_times (fresh _)) = _)), Er, Eg.
  destruct (pending_of_started w c (total_calls c / num_threads c)
              (total_calls c mod num_threads c) (range (num_threads c)))
    as [Pg Pr]; [|exact Hret|rewrite Pg, Pr; auto].
  intros i. unfold num_calls_this_thread.
  pose proof (Z.div_pos (total_calls c) (num_threads c) Ht ltac:(lia)).
  destruct (_ <? _); lia.
Qed.

(** C3 (what the code does). The server answers 200 with the Latin-1 bytes
    of "cafe" with an acute accent; one worker has two calls to make.  The
    first call's body does not decode, the exception is not caught, the
    worker ends there: one request sent out of two, nothing recorded,
    nothing printed, and the report is made from the empty list. *)
Theorem undecodable_body_ends_worker :
  exists (r : Report) (s : State),
    main_one_by_one (steady_world (Response 200 latin1_body) 0 1)
                    (sample_config 2 1)
    = Some (Reported r s)
    /\ map num_calls (threads s) = [2]
    /\ map dies_of (threads s) = [Some UnicodeDecodeError]
    /\ performed is_get s = 1%nat
    /\ response_times s = []
    /\ printed s = [].
Proof. do 2 eexists. split; [vm_compute; reflexivity | repeat split]. Qed.

(** C6 (what the code does). No call to make, one worker, and a clock that
    reads the same before the threads start and after they join: the
    division for the throughput is carried out and raises, and no report
    is produced. *)
Theorem zero_running_time_raises :
  exists s : State,
    main_one_by_one (steady_world (Response 200 ok_body) 5 5)
                    (sample_config 0 1)
    = Some (Raised ZeroDivisionError s)
    /\ joined s = true
    /\ response_times s = [].
Proof. eexists. split; [vm_compute; reflexivity | split; reflexivity]. Qed.

(** C9. With a thread count of 0 the division at line 148 raises
    [ZeroDivisionError]; [main] ends there, with no thread started and no
    request sent, under every schedule. *)
Theorem zero_threads_raises_before_start :
  forall (w : World) (c : Config) (schedule : list nat),
    num_threads c = 0 ->
    floordiv (total_calls c) (num_threads c) = inl ZeroDivisionError
    /\ pymod (total_calls c) (num_threads c) = inl ZeroDivisionError
    /\ main w c schedule
       = Some (Raised ZeroDivisionError
                      {| threads := []; response_times := [];
                         printed := []; history := [] |}).
Proof.
  intros w c schedule H. unfold main, start_all, floordiv, pymod.
  rewrite H. repeat split.
Qed.

(** C10 (what the code does). [total_calls = -1], one worker, and a clock
    that reads the same at both ends of the run: the worker is started
    with a quota of -1 and makes no call, all threads join, and the
    division at line 186 raises [ZeroDivisionError] instead of a report
    being produced. *)
Theorem negative_total_stalled_clock_raises :
  total_calls (sample_config (-1) 1) < 0
  /\ 1 <= num_threads (sample_config (-1) 1)
  /\ main (steady_world (Response 200 ok_body) 5 5) (sample_config (-1) 1) []
     = Some (Raised ZeroDivisionError
                    {| threads := [{| thread_id := 0; num_calls := -1;
                                      todo := []; dies_of := None |}];
                       response_times := []; printed := [];
                       history := [] |})
  /\ forall (r : Report) (s : State),
       main (steady_world (Response 200 ok_body) 5 5) (sample_config (-1) 1) []
       <> Some (Reported r s).
Proof.
  split; [reflexivity|]. split; [discriminate|]. split; [reflexivity|].
  intros r s. vm_compute. discriminate.
Qed.

(** ** The theorems at sample inputs *)

(** Ten calls over three workers: quotas 4, 3, 3. *)
Lemma quotas_sum_to_total_calls_witness :
  0 <= 10 /\ 1 <= 3
  /\ exists s,
       start_all (steady_world (Response 200 ok_body) 0 1) (sample_config 10 3)
       = inr s
       /\ map num_calls (threads s) = [4; 3; 3]
       /\ zsum (map num_calls (threads s)) = 10.
Proof.
  split; [lia|]. split; [lia|].
  apply (quotas_sum_to_total_calls
           (steady_world (Response 200 ok_body) 0 1) (sample_config 10 3));
    simpl; lia.
Defined.

Lemma quota_of_each_worker_witness :
  0 <= 10 /\ 1 <= 3
  /\ exists s,
       start_all (steady_world (Response 200 ok_body) 0 1) (sample_config 10 3)
       = inr s
       /\ Z.of_nat (length (threads s)) = 3
       /\ (forall (k : nat) (t : Thread),
              nth_error (threads s) k = Some t ->
              thread_id t = Z.of_nat k
              /\ num_calls t = if Z.of_nat k <? 1 then 3 + 1 else 3)
       /\ (forall t t' : Thread,
              In t (threads s) -> In t' (threads s) ->
              Z.abs (num_calls t - num_calls t') <= 1).
Proof.
  split; [lia|]. split; [lia|].
  apply (quota_of_each_worker
           (steady_world (Response 200 ok_body) 0 1) (sample_config 10 3));
    simpl; lia.
Defined.

(** Five calls over two workers whose turns alternate. *)
Lemma every_call_recorded_once_witness :
  joined (exec [0; 1; 0; 1; 0; 1; 0; 1; 0; 1; 0; 1; 0; 0; 0]%nat
               (fresh (map (start_thread
                              (steady_world (Response 404 ok_body) 0 1)
                              (sample_config 5 2) 2 1)
                           (range 2))))
  = true
  /\ Z.of_nat
       (length
          (response_times
             (exec [0; 1; 0; 1; 0; 1; 0; 1; 0; 1; 0; 1; 0; 0; 0]%nat
                   (fresh (map (start_thread
                                  (steady_world (Response 404 ok_body) 0 1)
                                  (sample_config 5 2) 2 1)
                               (range 2))))))
     = 5.
Proof.
  split; [reflexivity|].
  apply (every_call_recorded_once
           (steady_world (Response 404 ok_body) 0 1) (sample_config 5 2)
           [0; 1; 0; 1; 0; 1; 0; 1; 0; 1; 0; 1; 0; 0; 0]%nat
           (fresh (map (start_thread
                          (steady_world (Response 404 ok_body) 0 1)
                          (sample_config 5 2) 2 1)
                       (range 2)))).
  - simpl; lia.
  - simpl; lia.
  - reflexivity.
  - repeat constructor.
  - reflexivity.
Defined.

(** Three calls that all fail in transport: three sleeps. *)
Lemma sleeps_after_every_call_witness :
  exit_status (fetch_data (steady_world (RequestException "refused") 0 1)
                          "http://localhost/" (1 # 2) false true 7 3 10 30)
  = inr tt
  /\ Z.of_nat
       (count is_sleep
          (trace (fetch_data (steady_world (RequestException "refused") 0 1)
                             "http://localhost/" (1 # 2) false true 7 3
                             10 30)))
     = 3.
Proof.
  split; [reflexivity|].
  apply (sleeps_after_every_call
           (steady_world (RequestException "refused") 0 1)
           "http://localhost/" (1 # 2) false true 7 3 10 30).
  reflexivity.
Defined.

Lemma zero_threads_raises_before_start_witness :
  num_threads (sample_config 100 0) = 0
  /\ main (steady_world (Response 200 ok_body) 0 1) (sample_config 100 0)
          [0; 0; 1]%nat
     = Some (Raised ZeroDivisionError
                    {| threads := []; response_times := [];
                       printed := []; history := [] |}).
Proof.
  split; [reflexivity|].
  apply (zero_threads_raises_before_start
           (steady_world (Response 200 ok_body) 0 1) (sample_config 100 0)
           [0; 0; 1]%nat).
  reflexivity.
Defined.

(** * Further properties *)

(** ** When a worker returns and when it dies *)

Lemma range_first (q : Z) :
  1 <= q -> exists rest, range q = 0 :: rest.
Proof.
  intros Hq. unfold range.
  destruct (Z.to_nat q) as [|m] eqn:E; [lia|].
  simpl. eauto.
Qed.

Section WorkerEnds.

Variables (w : World) (u : string) (delay : Q) (keep reuse : bool)
          (tid : Z) (request_t connect_t : Q).

Local Notation "'request_sent'" := (request_of u reuse request_t connect_t).
Local Notation "'elapsed'" := (elapsed_of w tid).
Local Notation "'this_call'" :=
  (call w u delay keep reuse tid request_t connect_t).
Local Notation "'this_worker'" :=
  (fun q => fetch_data w u delay keep reuse tid q request_t connect_t).

(** A reply the [try] block does not get through ends the call, and with
    it the worker, right after the request. *)
Lemma call_unhandled (n : Z) :
  handled w keep (outcome (exchange w tid n)) = false ->
  trace (this_call n) = [Get request_sent]
  /\ (exit_status (this_call n) = inl UnicodeDecodeError
      \/ exit_status (this_call n) = inl UnicodeEncodeError).
Proof.
  unfold handled, drained, call, drain_body, request_of.
  destruct (outcome (exchange w tid n)) as [st body|msg]; [|discriminate].
  destruct keep; [discriminate|]. simpl.
  destruct (decode_utf8 body) as [text|]; [|auto].
  destruct (devnull_encodes w text); [discriminate | auto].
Qed.

(** A reply that is handled is recorded; what is left is the sleep. *)
Lemma call_handled (n : Z) :
  handled w keep (outcome (exchange w tid n)) = true ->
  exists l,
    this_call n
    = ([Get request_sent; Record_ l (elapsed n)] ++ trace (sleep delay),
       exit_status (sleep delay))
    /\ time_of_line l = elapsed n.
Proof.
  unfold handled.
  destruct (outcome (exchange w tid n)) as [st body|msg] eqn:Hx; intros H.
  - exists (classify tid n st (elapsed n)). split.
    + apply call_on_response with (body := body); assumption.
    + unfold classify. destruct (st =? 200); reflexivity.
  - exists (RequestFailed tid n msg (elapsed n)). split.
    + apply call_on_exception; assumption.
    + reflexivity.
Qed.

Lemma call_returns_iff (n : Z) :
  exit_status (this_call n) = inr tt
  <-> Qle_bool 0 delay && handled w keep (outcome (exchange w tid n)) = true.
Proof.
  destruct (handled w keep (outcome (exchange w tid n))) eqn:H.
  - destruct (call_handled n H) as (l & -> & _). rewrite andb_true_r.
    unfold sleep. destruct (Qle_bool 0 delay); simpl; split;
      (reflexivity || discriminate).
  - destruct (call_unhandled n H) as [_ [E|E]]; rewrite E, andb_false_r;
      split; discriminate.
Qed.

(** X1. Every request a worker sends goes to the configured URL, carries
    [Connection: keep-alive] when connections are to be reused and
    [Connection: close] otherwise, and is not streamed. *)
Theorem every_request_as_configured (q : Z) :
  Forall (fun a =>
            match a with
            | Get r => req_url r = u
                       /\ req_headers r = (if reuse then KeepAlive else Close)
                       /\ req_stream r = false
            | _ => True
            end)
         (trace (this_worker q)).
Proof.
  unfold fetch_data. apply for_each_Forall. intros n.
  destruct (handled w keep (outcome (exchange w tid n))) eqn:H.
  - destruct (call_handled n H) as (l & -> & _). simpl.
    unfold sleep. destruct (Qle_bool 0 delay); simpl; repeat constructor.
  - destruct (call_unhandled n H) as [-> _]. repeat constructor.
Qed.

(** X2. A worker returns from [fetch_data] only if, for every call of its
    quota, the delay is not negative and the reply is a library exception
    or a response whose body could be dealt with: a negative delay, or a
    single response whose body cannot be read, anywhere in the quota,
    means that the worker does not return. *)
Theorem fetch_data_returns_only_if (q : Z) :
  exit_status (this_worker q) = inr tt ->
  forall n, 0 <= n < q ->
            (0 <= delay)%Q
            /\ handled w keep (outcome (exchange w tid n)) = true.
Proof.
  unfold fetch_data. intros H n Hn.
  apply for_each_returns in H as [H _]. rewrite Forall_forall in H.
  assert (Hin : In n (range q)).
  { unfold range. apply in_map_iff. exists (Z.to_nat n).
    split; [lia | apply in_seq; lia]. }
  apply H, call_returns_iff, andb_true_iff in Hin as [Hd Hh].
  split; [apply Qle_bool_iff, Hd | exact Hh].
Qed.

(** X3. With a negative delay a worker that has at least one call to make
    makes exactly one: the first reply, if handled, is recorded, then
    [time.sleep] raises [ValueError] and the rest of the quota is never
    attempted. *)
Theorem negative_delay_stops_after_first_call (q : Z) :
  1 <= q -> (delay < 0)%Q ->
  handled w keep (outcome (exchange w tid 0)) = true ->
  exit_status (this_worker q) = inl ValueError
  /\ exists l,
       trace (this_worker q) = [Get request_sent; Record_ l (elapsed 0)].
Proof.
  intros Hq Hd Hh. unfold fetch_data.
  destruct (range_first q Hq) as [rest ->]. simpl.
  destruct (call_handled 0 Hh) as (l & -> & _).
  unfold sleep.
  destruct (Qle_bool 0 delay) eqn:B.
  - apply Qle_bool_iff in B. lra.
  - simpl. split; [reflexivity | eauto].
Qed.

End WorkerEnds.

(** ** Bodies that decode and bodies that do not *)

Lemma between_spec (lo hi b : N) :
  between lo hi b = true <-> (lo <= b <= hi)%N.
Proof. unfold between. rewrite andb_true_iff, !N.leb_le. tauto. Qed.

Lemma second_of_three_le (b0 b1 : N) :
  second_of_three b0 b1 = true -> (b1 <= 191)%N.
Proof.
  unfold second_of_three, continuation.
  destruct (b0 =? 224)%N; [|destruct (b0 =? 237)%N];
    rewrite between_spec; lia.
Qed.

Lemma second_of_four_le (b0 b1 : N) :
  second_of_four b0 b1 = true -> (b1 <= 191)%N.
Proof.
  unfold second_of_four, continuation.
  destruct (b0 =? 240)%N; [|destruct (b0 =? 244)%N];
    rewrite between_spec; lia.
Qed.

Lemma option_map_none {A B : Type} (f : A -> B) (o : option A) :
  o = None -> option_map f o = None.
Proof. now intros ->. Qed.

(** No well-formed UTF-8 text holds a byte from 0xF5 up. *)
Lemma decode_utf8_high_byte (n : nat) :
  forall body : list byte,
    (length body <= n)%nat ->
    Exists (fun x => (245 <= Byte.to_N x)%N) body ->
    decode_utf8 body = None.
Proof.
  induction n as [|n IH]; intros body Hlen Hbad.
  { destruct body; [inversion Hbad | simpl in Hlen; lia]. }
  destruct body as [|x0 r0]; [inversion Hbad|].
  cbn [decode_utf8].
  destruct (Byte.to_N x0 <? 128)%N eqn:E0.
  { apply N.ltb_lt in E0. apply option_map_none, IH; [simpl in Hlen; lia|].
    inversion Hbad; subst; [lia | assumption]. }
  destruct r0 as [|x1 r1]; [reflexivity|].
  destruct (between 194 223 (Byte.to_N x0)) eqn:E1.
  { apply between_spec in E1.
    destruct (continuation (Byte.to_N x1)) eqn:C1; [|reflexivity].
    apply between_spec in C1.
    apply option_map_none, IH; [simpl in Hlen; lia|].
    inversion Hbad as [? ? H|? ? H]; subst; [lia|].
    inversion H; subst; [lia | assumption]. }
  destruct r1 as [|x2 r2]; [reflexivity|].
  destruct (between 224 239 (Byte.to_N x0)) eqn:E2.
  { apply between_spec in E2.
    destruct (second_of_three (Byte.to_N x0) (Byte.to_N x1)
              && continuation (Byte.to_N x2)) eqn:C; [|reflexivity].
    apply andb_true_iff in C as [C1 C2].
    apply second_of_three_le in C1. apply between_spec in C2.
    apply option_map_none, IH; [simpl in Hlen; lia|].
    inversion Hbad as [? ? H|? ? H]; subst; [lia|].
    inversion H as [? ? H'|? ? H']; subst; [lia|].
    inversion H'; subst; [lia | assumption]. }
  destruct r2 as [|x3 r3]; [reflexivity|].
  destruct (between 240 244 (Byte.to_N x0)
            && second_of_four (Byte.to_N x0) (Byte.to_N x1)
            && continuation (Byte.to_N x2)
            && continuation (Byte.to_N x3)) eqn:C; [|reflexivity].
  apply andb_true_iff in C as [C C3].
  apply andb_true_iff in C as [C C2].
  apply andb_true_iff in C as [C0 C1].
  apply between_spec in C0, C2, C3. apply second_of_four_le in C1.
  apply option_map_none, IH; [simpl in Hlen; lia|].
  inversion Hbad as [? ? H|? ? H]; subst; [lia|].
  inversion H as [? ? H'|? ? H']; subst; [lia|].
  inversion H' as [? ? H''|? ? H'']; subst; [lia|].
  inversion H''; subst; [lia | assumption].
Qed.

Lemma decode_utf8_ascii (body : list byte) :
  Forall (fun x => (Byte.to_N x < 128)%N) body ->
  decode_utf8 body = Some (map Byte.to_N body).
Proof.
  induction 1 as [|x body Hx _ IH]; [reflexivity|].
  cbn [decode_utf8 map]. apply N.ltb_lt in Hx. rewrite Hx, IH. reflexivity.
Qed.

(** X4. A response whose body holds a byte from 0xF5 to 0xFF (no UTF-8
    text does) ends the worker when bodies are read: the request is sent,
    [UnicodeDecodeError] is raised, nothing is printed or recorded,
    whatever the status code. *)
Theorem binary_body_ends_call :
  forall (w : World) (url : string) (sleep_time : Q) (reuse_connects : bool)
         (thread_id : Z) (request_time_out connect_time_out : Q)
         (call_num status_code : Z) (content : list byte),
    outcome (exchange w thread_id call_num) = Response status_code content ->
    Exists (fun x => (245 <= Byte.to_N x)%N) content ->
    call w url sleep_time false reuse_connects thread_id
         request_time_out connect_time_out call_num
    = ([Get (request_of url reuse_connects request_time_out connect_time_out)],
       inl UnicodeDecodeError).
Proof.
  intros w u delay reuse tid rto cto n st body Hx Hbad.
  unfold call, drain_body, request_of. rewrite Hx.
  rewrite (decode_utf8_high_byte (length body) body (le_n _) Hbad).
  reflexivity.
Qed.

(** X5. A response whose body is pure ASCII is always dealt with when the
    null device takes the text: the call goes on to print and record. *)
Theorem ascii_body_is_drained :
  forall (w : World) (keep_connects_open : bool) (content : list byte),
    Forall (fun x => (Byte.to_N x < 128)%N) content ->
    devnull_encodes w (map Byte.to_N content) = true ->
    drained w keep_connects_open content = true
    /\ decode_utf8 content = Some (map Byte.to_N content).
Proof.
  intros w keep body Hascii Henc. split; [|now apply decode_utf8_ascii].
  unfold drained, drain_body.
  rewrite (decode_utf8_ascii body Hascii), Henc.
  apply orb_true_r.
Qed.

(** ** Invariants of the shared state *)

Lemma step_effect (k : nat) (s s' : State) :
  step k s = Some s' ->
  exists (t : Thread) (a : action) (rest : list action),
    nth_error (threads s) k = Some t
    /\ todo t = a :: rest
    /\ threads s'
       = set_thread k {| thread_id := thread_id t; num_calls := num_calls t;
                         todo := rest; dies_of := dies_of t |} (threads s)
    /\ history s' = history s ++ [(thread_id t, a)]
    /\ response_times s' = response_times s ++ times [a]
    /\ printed s' = printed s ++ printed_by [a].
Proof.
  unfold step. destruct (nth_error (threads s) k) as [t|]; [|discriminate].
  destruct (todo t) as [|a rest] eqn:Ht; [discriminate|].
  intros [= <-]. exists t, a, rest. cbn [threads history response_times printed].
  rewrite threads_perform, history_perform.
  repeat split; auto; destruct a; simpl; now rewrite ?app_nil_r.
Qed.

Lemma Forall_set_thread (P : Thread -> Prop) (t' : Thread) :
  forall (ts : list Thread) (k : nat),
    Forall P ts -> P t' -> Forall P (set_thread k t' ts).
Proof.
  induction ts as [|t0 ts IH]; intros [|k] H Ht'; simpl; auto;
    inversion H; subst; constructor; auto.
Qed.

Lemma nth_error_set_thread_other (t' : Thread) :
  forall (ts : list Thread) (k j : nat),
    j <> k -> nth_error (set_thread k t' ts) j = nth_error ts j.
Proof.
  induction ts as [|t0 ts IH]; intros [|k] [|j] H; simpl; auto;
    try contradiction; try (apply IH; lia).
Qed.

Lemma length_set_thread (t' : Thread) :
  forall (ts : list Thread) (k : nat),
    length (set_thread k t' ts) = length ts.
Proof. induction ts as [|t0 ts IH]; intros [|k]; simpl; auto. Qed.

(** A property of states that holds at the start and that every step
    keeps holds after every schedule. *)
Lemma exec_invariant (I : State -> Prop) :
  (forall k s s', step k s = Some s' -> I s -> I s') ->
  forall (schedule : list nat) (s : State), I s -> I (exec schedule s).
Proof.
  intros Hstep. induction schedule as [|k schedule IH]; intros s Hs; simpl;
    [assumption|].
  destruct (step k s) as [s'|] eqn:E; [|auto].
  apply IH. eapply Hstep; eassumption.
Qed.

(** *** What is printed and what is recorded go together *)

Lemma fetch_data_well_timed (w : World) (u : string) (delay : Q)
    (keep reuse : bool) (tid q : Z) (rto cto : Q) :
  Forall well_timed (trace (fetch_data w u delay keep reuse tid q rto cto)).
Proof.
  unfold fetch_data. apply for_each_Forall. intros n.
  destruct (handled w keep (outcome (exchange w tid n))) eqn:H.
  - destruct (call_handled w u delay keep reuse tid rto cto n H)
      as (l & -> & Hl).
    simpl. unfold sleep. destruct (Qle_bool 0 delay); simpl;
      repeat constructor; exact Hl.
  - destruct (call_unhandled w u delay keep reuse tid rto cto n H) as [-> _].
    repeat constructor.
Qed.

Lemma started_well_timed (w : World) (c : Config) (s0 : State) :
  start_all w c = inr s0 ->
  Forall (fun t => Forall well_timed (todo t)) (threads s0).
Proof.
  unfold start_all.
  destruct (floordiv _ _) as [e|base]; [discriminate|].
  destruct (pymod _ _) as [e|r]; [discriminate|].
  intros [= <-]. apply Forall_forall. intros t Ht.
  apply in_map_iff in Ht as (i & <- & _). apply fetch_data_well_timed.
Qed.

(** X6. Under every schedule and at every moment of the run, the k-th line
    printed by the workers shows the k-th time on the shared list: the
    print and the append under the lock are never separated by another
    thread. *)
Theorem printed_lines_match_recorded_times :
  forall (w : World) (c : Config) (schedule : list nat) (s0 : State),
    start_all w c = inr s0 ->
    map time_of_line (printed (exec schedule s0))
    = response_times (exec schedule s0).
Proof.
  intros w c schedule s0 H0.
  apply (exec_invariant
           (fun s => Forall (fun t => Forall well_timed (todo t)) (threads s)
                     /\ map time_of_line (printed s) = response_times s)).
  - intros k s s' Hs [Hw He].
    apply step_effect in Hs as (t & a & rest & Hk & Ht & -> & _ & -> & ->).
    assert (Hta : Forall well_timed (a :: rest)).
    { rewrite <- Ht. rewrite Forall_forall in Hw.
      apply Hw. eapply nth_error_In; eassumption. }
    inversion Hta as [|? ? Ha Hrest]; subst. split.
    + apply Forall_set_thread; assumption.
    + rewrite map_app, He. f_equal.
      destruct a; simpl in *; [reflexivity | now rewrite Ha | reflexivity].
  - split; [eapply started_well_timed; eassumption|].
    unfold start_all in H0.
    destruct (floordiv _ _); [discriminate|].
    destruct (pymod _ _); [discriminate|].
    injection H0 as <-. reflexivity.
Qed.

(** *** The shared list is a permutation of what the threads append *)

Lemma times_cons (a : action) (l : list action) :
  times (a :: l) = times [a] ++ times l.
Proof. unfold times. simpl. now rewrite app_nil_r. Qed.

Lemma pending_times_set_thread (a : action) (rest : list action)
    (t t' : Thread) :
  todo t = a :: rest -> todo t' = rest ->
  forall (ts : list Thread) (k : nat),
    nth_error ts k = Some t ->
    Permutation (pending_times ts)
                (times [a] ++ pending_times (set_thread k t' ts)).
Proof.
  intros Ht Ht'. induction ts as [|t0 ts IH]; intros [|k] Hk; simpl in *;
    try discriminate.
  - injection Hk as ->. unfold pending_times. simpl.
    rewrite Ht, Ht', times_cons, <- app_assoc. reflexivity.
  - specialize (IH k Hk). unfold pending_times in *. simpl.
    rewrite IH. apply Permutation_app_swap_app.
Qed.

Lemma exec_times_permutation (schedule : list nat) (s0 : State) :
  Permutation
    (response_times (exec schedule s0)
       ++ pending_times (threads (exec schedule s0)))
    (response_times s0 ++ pending_times (threads s0)).
Proof.
  apply (exec_invariant
           (fun s => Permutation
                       (response_times s ++ pending_times (threads s))
                       (response_times s0 ++ pending_times (threads s0))));
    [|reflexivity].
  intros k s s' Hs Hp.
  apply step_effect in Hs as (t & a & rest & Hk & Ht & -> & _ & -> & _).
  rewrite <- Hp, <- app_assoc.
  apply Permutation_app_head. symmetry.
  apply (pending_times_set_thread a rest t); auto.
Qed.



(** *** Sums and means *)

Lemma qsum_acc (l : list Q) (a : Q) :
  (fold_left Qplus l a == a + qsum l)%Q.
Proof.
  unfold qsum. revert a. induction l as [|x l IH]; intros a; simpl.
  - lra.
  - rewrite (IH (a + x)%Q), (IH (0 + x)%Q). lra.
Qed.

Lemma qsum_cons (x : Q) (l : list Q) : (qsum (x :: l) == x + qsum l)%Q.
Proof. unfold qsum at 1. simpl. rewrite qsum_acc. lra. Qed.

Lemma qsum_nonneg (l : list Q) :
  Forall (fun x => 0 <= x)%Q l -> (0 <= qsum l)%Q.
Proof.
  induction 1 as [|x l Hx _ IH]; [unfold qsum; simpl; lra|].
  rewrite qsum_cons. lra.
Qed.

(** ** The run under different schedules *)

Lemma start_all_inv (w : World) (c : Config) (s0 : State) :
  start_all w c = inr s0 ->
  num_threads c <> 0
  /\ s0 = fresh (map (start_thread w c (total_calls c / num_threads c)
                                   (total_calls c mod num_threads c))
                     (range (num_threads c))).
Proof.
  intros H. destruct (Z.eq_dec (num_threads c) 0) as [E|E].
  - unfold start_all, floordiv in H. rewrite E in H. discriminate.
  - rewrite start_all_ok in H by assumption. injection H as <-. auto.
Qed.





(** *** Never more than the budget *)

Lemma for_each_records_le_gets {A : Type} (body : A -> W unit) (l : list A) :
  (forall x, count is_record (trace (body x))
             <= count is_get (trace (body x)))%nat ->
  (count is_record (trace (for_each l body))
   <= count is_get (trace (for_each l body)))%nat.
Proof.
  intros Hb. induction l as [|x l IH]; simpl; [unfold count; simpl; lia|].
  rewrite bind_trace, !count_app. specialize (Hb x).
  destruct (exit_status (body x)); [unfold count at 2 4; simpl|]; lia.
Qed.

Lemma fetch_data_records_le_gets (w : World) (u : string) (delay : Q)
    (keep reuse : bool) (tid q : Z) (rto cto : Q) :
  (count is_record (trace (fetch_data w u delay keep reuse tid q rto cto))
   <= count is_get (trace (fetch_data w u delay keep reuse tid q rto cto)))%nat.
Proof.
  unfold fetch_data. apply for_each_records_le_gets. intros n.
  rewrite call_sends_once. apply call_records_at_most_once.
Qed.

Lemma pending_bounds (w : World) (c : Config) (base r : Z) (l : list Z) :
  (forall i, 0 <= num_calls_this_thread base r i) ->
  Z.of_nat (pending is_get (map (start_thread w c base r) l))
  <= zsum (map num_calls (map (start_thread w c base r) l))
  /\ (pending is_record (map (start_thread w c base r) l)
      <= pending is_get (map (start_thread w c base r) l))%nat.
Proof.
  intros Hq. induction l as [|i l [IHg IHr]]; [simpl; lia|].
  rewrite !map_cons, !pending_cons, zsum_cons.
  pose proof (fetch_data_bounds w (url c) (sleep_time c)
                (keep_connects_open c) (reuse_connects c) i
                (request_time_out c) (connect_time_out c)
                (num_calls_this_thread base r i)) as [Bg _].
  pose proof (fetch_data_records_le_gets w (url c) (sleep_time c)
                (keep_connects_open c) (reuse_connects c) i
                (num_calls_this_thread base r i)
                (request_time_out c) (connect_time_out c)) as Brg.
  cbn zeta in Bg.
  change (trace (fetch_data _ _ _ _ _ _ _ _ _))
    with (todo (start_thread w c base r i)) in Bg, Brg.
  rewrite num_calls_start_thread. specialize (Hq i). lia.
Qed.

(** X9. With [total_calls >= 0] and [num_threads >= 1], at every moment of
    every run, whether or not workers die, no more than [total_calls]
    requests have been sent and no more than [total_calls] times
    recorded; and when all threads have joined, the times recorded are
    no more than the requests sent. *)
Theorem never_more_than_total_calls :
  forall (w : World) (c : Config) (schedule : list nat) (s0 : State),
    0 <= total_calls c -> 1 <= num_threads c ->
    start_all w c = inr s0 ->
    Z.of_nat (performed is_get (exec schedule s0)) <= total_calls c
    /\ Z.of_nat (length (response_times (exec schedule s0))) <= total_calls c
    /\ (joined (exec schedule s0) = true ->
        (length (response_times (exec schedule s0))
         <= performed is_get (exec schedule s0))%nat).
Proof.
  intros w c schedule s0 Ht Hn H0.
  pose proof (quotas_sum w c s0 Hn H0) as Hsum.
  apply start_all_inv in H0 as [_ ->]. cbn [threads fresh] in Hsum.
  set (ts := map _ (range (num_threads c))) in *.
  pose proof (exec_conserves is_get schedule (fresh ts)) as Cg.
  pose proof (exec_conserves is_record schedule (fresh ts)) as Cr.
  rewrite (exec_records schedule (fresh ts) eq_refl).
  change (performed is_get (fresh ts)) with O in Cg.
  change (performed is_record (fresh ts)) with O in Cr.
  change (threads (fresh ts)) with ts in Cg, Cr.
  destruct (pending_bounds w c (total_calls c / num_threads c)
              (total_calls c mod num_threads c) (range (num_threads c)))
    as [Bg Brg].
  { intros i. unfold num_calls_this_thread.
    pose proof (Z.div_pos (total_calls c) (num_threads c) Ht ltac:(lia)).
    destruct (_ <? _); lia. }
  fold ts in Bg, Brg.
  repeat split; try lia.
  intros J.
  rewrite (joined_nothing_pending is_get _ J) in Cg.
  rewrite (joined_nothing_pending is_record _ J) in Cr. lia.
Qed.

(** *** Times on the shared list *)

Lemma fetch_data_times (P : Q -> Prop) (w : World) (u : string) (delay : Q)
    (keep reuse : bool) (tid q : Z) (rto cto : Q) :
  (forall n, P (elapsed_of w tid n)) ->
  Forall P (times (trace (fetch_data w u delay keep reuse tid q rto cto))).
Proof.
  intros HP. unfold fetch_data.
  induction (range q) as [|n l IH]; simpl; [constructor|].
  rewrite bind_trace. unfold times in *. rewrite flat_map_app.
  apply Forall_app. split.
  - destruct (handled w keep (outcome (exchange w tid n))) eqn:H.
    + destruct (call_handled w u delay keep reuse tid rto cto n H)
        as (ln & -> & _).
      simpl. unfold sleep. destruct (Qle_bool 0 delay); simpl;
        repeat constructor; apply HP.
    + destruct (call_unhandled w u delay keep reuse tid rto cto n H)
        as [-> _].
      constructor.
  - destruct (exit_status _); [constructor | exact IH].
Qed.

Lemma exec_times_from_threads (P : Q -> Prop) (schedule : list nat)
    (ts : list Thread) :
  Forall P (pending_times ts) ->
  Forall P (response_times (exec schedule (fresh ts))).
Proof.
  intros H. pose proof (exec_times_permutation schedule (fresh ts)) as Pm.
  simpl in Pm. symmetry in Pm.
  pose proof (Permutation_Forall Pm H) as F.
  apply Forall_app in F. apply F.
Qed.

(** X10. When the clock does not go back during any call, every time on
    the shared list is non-negative at every moment of every run, and so
    is the average of a report. *)
Theorem recorded_times_nonnegative :
  forall (w : World) (c : Config) (schedule : list nat),
    (forall i n, (clock_before (exchange w i n)
                  <= clock_after (exchange w i n))%Q) ->
    (forall s0, start_all w c = inr s0 ->
                Forall (fun t => (0 <= t)%Q)
                       (response_times (exec schedule s0)))
    /\ (forall r s, main w c schedule = Some (Reported r s) ->
                    (0 <= average_response_time r)%Q).
Proof.
  intros w c schedule Hclock.
  assert (Hall : forall s0, start_all w c = inr s0 ->
                   Forall (fun t => (0 <= t)%Q)
                          (response_times (exec schedule s0))).
  { intros s0 H0. apply start_all_inv in H0 as [_ ->].
    apply exec_times_from_threads. unfold pending_times.
    apply Forall_flat_map, Forall_forall. intros t Ht.
    apply in_map_iff in Ht as (i & <- & _).
    apply fetch_data_times. intros n. unfold elapsed_of, milliseconds.
    specialize (Hclock i n). lra. }
  split; [exact Hall|].
  intros r s. unfold main.
  destruct (start_all w c) as [e|s0]; [discriminate|].
  specialize (Hall s0 eq_refl).
  destruct (joined _); [|discriminate].
  unfold summarise. destruct (float_of_int _) as [e|calls]; [discriminate|].
  destruct (truediv _ _); [discriminate|].
  intros [= <- <-]. cbn [average_response_time].
  destruct (response_times (exec schedule s0)) as [|x l] eqn:E; [lra|].
  pose proof (qsum_nonneg _ Hall) as Hsum.
  apply Qle_shift_div_l; [|lra].
  cbn [length]. rewrite Nat2Z.inj_succ. unfold Qlt. simpl. lia.
Qed.

(** ** A negative total *)

(** X22. With [total_calls < 0] and [num_threads >= 1] all the threads
    are started, each with a quota of 0 or less, and none of them makes a
    call: under every schedule nothing is sent, printed or recorded, and
    all the threads have joined. *)
Theorem negative_total_makes_no_call :
  forall (w : World) (c : Config) (schedule : list nat),
    total_calls c < 0 -> 1 <= num_threads c ->
    exists s0 : State,
      start_all w c = inr s0
      /\ Z.of_nat (length (threads s0)) = num_threads c
      /\ Forall (fun t => num_calls t <= 0 /\ todo t = []
                          /\ dies_of t = None) (threads s0)
      /\ joined (exec schedule s0) = true
      /\ history (exec schedule s0) = []
      /\ printed (exec schedule s0) = []
      /\ response_times (exec schedule s0) = [].
Proof.
  intros w c schedule Ht Hn.
  assert (Hts : Forall (fun t => num_calls t <= 0 /\ todo t = []
                                 /\ dies_of t = None)
                  (map (start_thread w c (total_calls c / num_threads c)
                                     (total_calls c mod num_threads c))
                       (range (num_threads c)))).
  { apply Forall_forall. intros t Hin.
    apply in_map_iff in Hin as (i & <- & _).
    assert (Hq : num_calls_this_thread (total_calls c / num_threads c)
                   (total_calls c mod num_threads c) i <= 0).
    { unfold num_calls_this_thread.
      pose proof (Z.div_lt_upper_bound (total_calls c) (num_threads c) 0
                    ltac:(lia) ltac:(lia)).
      destruct (_ <? _); lia. }
    unfold start_thread, fetch_data, range. cbn [num_calls todo dies_of].
    replace (Z.to_nat _) with O by lia. auto. }
  assert (J : joined (fresh (map (start_thread w c
                                    (total_calls c / num_threads c)
                                    (total_calls c mod num_threads c))
                                 (range (num_threads c)))) = true).
  { unfold joined. apply forallb_forall. intros t Hin.
    rewrite Forall_forall in Hts. destruct (Hts t Hin) as (_ & -> & _).
    reflexivity. }
  eexists. split; [apply start_all_ok; lia|].
  rewrite (exec_idle schedule _ J). cbn [threads fresh].
  repeat split; auto.
  rewrite length_map, range_length. lia.
Qed.

(** ** More threads than calls *)

(** X12. With fewer calls than threads ([0 <= total_calls < num_threads])
    the first [total_calls] workers make one call each; every other
    worker is started with a quota of 0, does nothing and returns. *)
Theorem surplus_workers_idle :
  forall (w : World) (c : Config),
    0 <= total_calls c < num_threads c ->
    exists s,
      start_all w c = inr s
      /\ Z.of_nat (length (threads s)) = num_threads c
      /\ forall (k : nat) (t : Thread),
           nth_error (threads s) k = Some t ->
           (Z.of_nat k < total_calls c ->
            num_calls t = 1
            /\ count is_get (todo t) = 1%nat)
           /\ (total_calls c <= Z.of_nat k ->
               num_calls t = 0 /\ todo t = [] /\ dies_of t = None).
Proof.
  intros w c [H0 Hn]. eexists. split; [apply start_all_ok; lia|].
  cbn [threads fresh]. split; [rewrite length_map, range_length; lia|].
  intros k t Hk. rewrite nth_error_map in Hk.
  destruct (nth_error (range (num_threads c)) k) as [i|] eqn:Hi;
    [|discriminate].
  injection Hk as <-. apply range_nth_error in Hi as [-> _].
  rewrite num_calls_start_thread. unfold num_calls_this_thread.
  rewrite Z.div_small, Z.mod_small by lia.
  split; intros Hlt.
  - destruct (Z.ltb_spec (Z.of_nat k) (total_calls c)); [|lia].
    split; [reflexivity|].
    unfold start_thread, num_calls_this_thread. cbn [todo].
    destruct (Z.ltb_spec (Z.of_nat k) (total_calls c)); [|lia].
    unfold fetch_data. change (range (0 + 1)) with [0]. simpl.
    rewrite bind_trace, count_app, call_sends_once.
    destruct (exit_status _); reflexivity.
  - destruct (Z.ltb_spec (Z.of_nat k) (total_calls c)); [lia|].
    split; [reflexivity|].
    unfold start_thread, num_calls_this_thread. cbn [todo dies_of].
    destruct (Z.ltb_spec (Z.of_nat k) (total_calls c)); [lia|].
    split; reflexivity.
Qed.

(** ** The command line *)

Lemma range_by_two_step (n : nat) :
  range_by_two (S (S n))
  = O :: map (fun i => S (S i)) (range_by_two n).
Proof.
  unfold range_by_two.
  change (Nat.div2 (S (S (S n)))) with (S (Nat.div2 (S n))).
  cbn [seq map]. f_equal. rewrite <- seq_shift, !map_map.
  apply map_ext. intros k. lia.
Qed.

Lemma option_at_shift (b : Builtins) (a x : string) (rest : list string)
    (i : nat) (c : Config) :
  option_at b (a :: x :: rest) (S (S i)) c = option_at b rest i c.
Proof. reflexivity. Qed.

Lemma option_at_first (b : Builtins) (a x : string) (rest : list string)
    (c : Config) :
  option_at b (a :: x :: rest) 0 c = option_at b [a; x] 0 c.
Proof. reflexivity. Qed.

Lemma options_at_shift (b : Builtins) (a x : string) (rest : list string) :
  forall (indices : list nat) (c : Config),
    options_at b (a :: x :: rest) (map (fun i => S (S i)) indices) c
    = options_at b rest indices c.
Proof.
  induction indices as [|i indices IH]; intros c; [reflexivity|].
  cbn [map options_at]. rewrite option_at_shift.
  destruct (option_at b rest i c); [reflexivity | apply IH].
Qed.

(** The loop takes the arguments two at a time. *)
Lemma parse_options_two (b : Builtins) (a x : string) (rest : list string)
    (c : Config) :
  parse_options b (a :: x :: rest) c
  = match option_at b [a; x] 0 c with
    | inl m => inl m
    | inr c' => parse_options b rest c'
    end.
Proof.
  unfold parse_options. cbn [length]. rewrite range_by_two_step.
  cbn [options_at]. rewrite option_at_first.
  destruct (option_at b [a; x] 0 c); [reflexivity | apply options_at_shift].
Qed.

Lemma parse_options_one (b : Builtins) (a : string) (c : Config) :
  parse_options b [a] c = option_at b [a] 0 c.
Proof.
  unfold parse_options. change (range_by_two (length [a])) with [O].
  cbn [options_at]. destruct (option_at b [a] 0 c); reflexivity.
Qed.

Lemma two_by_two (P : list string -> Prop) :
  P [] -> (forall a, P [a]) ->
  (forall a x rest, P rest -> P (a :: x :: rest)) ->
  forall l, P l.
Proof.
  intros H0 H1 H2.
  assert (H : forall l, P l /\ forall a, P (a :: l)).
  { induction l as [|x l [IH IH']]; split; auto. }
  apply H.
Qed.

Lemma parse_options_app_even (b : Builtins) (ys : list string) :
  forall (xs : list string) (c : Config),
    Nat.even (length xs) = true ->
    parse_options b (xs ++ ys) c
    = match parse_options b xs c with
      | inl m => inl m
      | inr c' => parse_options b ys c'
      end.
Proof.
  intros xs. induction xs as [|a|a x rest IH] using two_by_two; intros c He.
  - reflexivity.
  - discriminate He.
  - cbn [app]. rewrite !parse_options_two.
    destruct (option_at b [a; x] 0 c); [reflexivity|]. apply IH. exact He.
Qed.

Lemma eqb_of_neq (a name : string) :
  a <> name -> (a =? name)%string = false.
Proof. apply String.eqb_neq. Qed.

(** X14. The options are read in pairs: an even-length run of arguments is
    parsed first and the rest is parsed from the configuration it gives,
    a message printed in the first part ending the parse. *)
Theorem parse_options_app :
  forall (b : Builtins) (xs ys : list string) (c : Config),
    Nat.even (length xs) = true ->
    parse_options b (xs ++ ys) c
    = match parse_options b xs c with
      | inl m => inl m
      | inr c' => parse_options b ys c'
      end.
Proof. intros b xs ys c. apply parse_options_app_even. Qed.

(** X15. A flag takes the argument after it out of play: whatever follows
    [-reuseConnects] or [-keepConnectsOpen], be it the name of another
    option, is skipped and the parse goes on after it with the flag set. *)
Theorem flag_skips_next_argument :
  forall (b : Builtins) (x : string) (rest : list string) (c : Config),
    parse_options b ("-reuseConnects"%string :: x :: rest) c
    = parse_options b rest
        {| url := url c; total_calls := total_calls c;
           num_threads := num_threads c; sleep_time := sleep_time c;
           request_time_out := request_time_out c;
           connect_time_out := connect_time_out c;
           reuse_connects := true;
           keep_connects_open := keep_connects_open c |}
    /\ parse_options b ("-keepConnectsOpen"%string :: x :: rest) c
       = parse_options b rest
           {| url := url c; total_calls := total_calls c;
              num_threads := num_threads c; sleep_time := sleep_time c;
              request_time_out := request_time_out c;
              connect_time_out := connect_time_out c;
              reuse_connects := reuse_connects c;
              keep_connects_open := true |}.
Proof. intros b x rest c. split; rewrite parse_options_two; reflexivity. Qed.

(** X16. An argument in option position that is none of the seven option
    names is passed over without a message, together with the argument
    after it. *)
Theorem unknown_option_ignored :
  forall (b : Builtins) (a x : string) (rest : list string) (c : Config),
    ~ In a known_options ->
    parse_options b (a :: x :: rest) c = parse_options b rest c
    /\ parse_options b [a] c = inr c.
Proof.
  intros b a x rest c Hn.
  assert (E : forall y, option_at b (a :: y) 0 c = inr c).
  { intros y. unfold option_at. cbn [nth_error].
    unfold known_options, valued_options in Hn. cbn [app In] in Hn.
    rewrite !eqb_of_neq by (intros ->; tauto). reflexivity. }
  split.
  - rewrite parse_options_two, (E [x]). reflexivity.
  - rewrite parse_options_one. apply E.
Qed.

(** X17. An option that takes a value and comes last, with nothing after
    it, ends the parse with its message; so does one whose value the
    conversion applied to that option refuses ([int] for [-totalCalls]
    and [-numThreads], [float] for the three durations), whatever the
    other conversion would make of the value. *)
Theorem missing_value_is_an_error :
  forall (b : Builtins) (name : string) (xs : list string) (c c' : Config),
    In name valued_options ->
    Nat.even (length xs) = true ->
    parse_options b xs c = inr c' ->
    parse_options b (xs ++ [name]) c = inl (value_message name)
    /\ (forall v rest,
           conversion_rejects b name v = true ->
           parse_options b (xs ++ name :: v :: rest) c
           = inl (value_message name)).
Proof.
  intros b name xs c c' Hin He Hxs.
  split; [|intros v rest Hr];
    rewrite (parse_options_app_even b _ xs c He), Hxs;
    [rewrite parse_options_one | rewrite parse_options_two];
    unfold valued_options in Hin; cbn [In] in Hin;
    decompose [or] Hin; subst; try contradiction;
    unfold option_at, seconds_after, value_after; cbn;
    try reflexivity;
    unfold conversion_rejects in Hr; cbn in Hr;
    [destruct (py_int b v) | destruct (py_int b v)
     | destruct (py_float b v) | destruct (py_float b v)
     | destruct (py_float b v)];
    (discriminate Hr || reflexivity).
Qed.

Lemma option_at_keeps (b : Builtins) (args : list string) (i : nat)
    (c c' : Config) :
  option_at b args i c = inr c' ->
  url c' = url c
  /\ (nth_error args i <> Some "-connectTimeOut"%string ->
      connect_time_out c' = connect_time_out c).
Proof.
  unfold option_at.
  destruct (nth_error args i) as [a|]; [|intros [= <-]; auto].
  destruct (a =? "-totalCalls")%string;
    [destruct (value_after _ _ _ _); intros [= <-]; auto|].
  destruct (a =? "-numThreads")%string;
    [destruct (value_after _ _ _ _); intros [= <-]; auto|].
  destruct (a =? "-sleepTime")%string;
    [destruct (seconds_after _ _ _ _); intros [= <-]; auto|].
  destruct (a =? "-requestTimeOut")%string;
    [destruct (seconds_after _ _ _ _); intros [= <-]; auto|].
  destruct (String.eqb_spec a "-connectTimeOut") as [->|Hne].
  { destruct (seconds_after _ _ _ _); intros [= <-]; split; [reflexivity|].
    intros H. contradiction H. reflexivity. }
  destruct (a =? "-reuseConnects")%string; [intros [= <-]; auto|].
  destruct (a =? "-keepConnectsOpen")%string; intros [= <-]; auto.
Qed.

Lemma parse_options_keeps (b : Builtins) :
  forall (args : list string) (c c' : Config),
    parse_options b args c = inr c' ->
    url c' = url c
    /\ (~ In "-connectTimeOut"%string args ->
        connect_time_out c' = connect_time_out c).
Proof.
  intros args.
  induction args as [|a|a x rest IH] using two_by_two; intros c c' H.
  - injection H as <-. auto.
  - rewrite parse_options_one in H.
    apply option_at_keeps in H as [Hu Hc]. split; [assumption|].
    intros Hn. apply Hc. cbn. intros [= ->]. apply Hn. left. reflexivity.
  - rewrite parse_options_two in H.
    destruct (option_at b [a; x] 0 c) as [m|c1] eqn:E; [discriminate|].
    apply option_at_keeps in E as [Hu Hc].
    apply IH in H as [Hu' Hc']. split; [congruence|].
    intros Hn. rewrite Hc', Hc.
    + reflexivity.
    + cbn. intros [= ->]. apply Hn. left. reflexivity.
    + intros Hin. apply Hn. right. right. exact Hin.
Qed.

(** X18. [main] gets past the command line only when the first argument
    starts with [http] (in lower case): that argument is then the URL of
    the run, whatever options follow. *)
Theorem run_needs_http_url :
  forall (b : Builtins) (argv : list string) (c : Config),
    parse_argv b argv = Run c ->
    exists (program : string) (args : list string),
      argv = program :: url c :: args
      /\ startswith (url c) "http" = true
      /\ parse_options b args (defaults (url c)) = inr c.
Proof.
  intros b argv c H. unfold parse_argv in H.
  destruct argv as [|program [|first args]]; try discriminate.
  destruct ((first =? "-?") || (first =? "--help"))%string; [discriminate|].
  destruct (startswith first "http") eqn:Hs; [|discriminate].
  destruct (parse_options b args (defaults first)) as [m|c0] eqn:Hp;
    [discriminate|].
  injection H as <-.
  destruct (parse_options_keeps b args _ _ Hp) as [Hu _].
  cbn [url defaults] in Hu. rewrite Hu. eauto.
Qed.

(** X19. The connection time-out does not follow the request time-out:
    unless [-connectTimeOut] is given it is 30 seconds, three times the
    default request time-out, whatever [-requestTimeOut] says. *)
Theorem connect_time_out_default_is_fixed :
  forall (b : Builtins) (program first : string) (args : list string)
         (c : Config),
    parse_argv b (program :: first :: args) = Run c ->
    ~ In "-connectTimeOut"%string args ->
    connect_time_out c = 30%Q.
Proof.
  intros b program first args c H Hn. unfold parse_argv in H.
  destruct ((first =? "-?") || (first =? "--help"))%string; [discriminate|].
  destruct (startswith first "http"); [|discriminate].
  destruct (parse_options b args (defaults first)) as [m|c0] eqn:Hp;
    [discriminate|].
  injection H as <-.
  destruct (parse_options_keeps b args _ _ Hp) as [_ Hc].
  rewrite (Hc Hn). reflexivity.
Qed.

(** X20. Of two values given for the same option the later one counts:
    after any even-length run of arguments that parses, [-totalCalls v]
    sets the total to [int(v)] and leaves the rest as it was. *)
Theorem later_total_calls_wins :
  forall (b : Builtins) (xs : list string) (v : string) (n : Z)
         (c c' : Config),
    Nat.even (length xs) = true ->
    parse_options b xs c = inr c' ->
    py_int b v = Some n ->
    parse_options b (xs ++ ["-totalCalls"%string; v]) c
    = inr {| url := url c'; total_calls := n;
             num_threads := num_threads c'; sleep_time := sleep_time c';
             request_time_out := request_time_out c';
             connect_time_out := connect_time_out c';
             reuse_connects := reuse_connects c';
             keep_connects_open := keep_connects_open c' |}.
Proof.
  intros b xs v n c c' He Hxs Hv.
  rewrite (parse_options_app_even b _ xs c He), Hxs, parse_options_two.
  unfold option_at, value_after. cbn. rewrite Hv. reflexivity.
Qed.

(** ** What the printed lines say *)

Lemma call_prints_its_line (w : World) (u : string) (delay : Q)
    (keep reuse : bool) (tid : Z) (rto cto : Q) (n : Z) :
  Forall (fun a => match a with
                   | Record_ l t => l = line_for w tid n
                                    /\ t = elapsed_of w tid n
                   | _ => True
                   end)
         (trace (call w u delay keep reuse tid rto cto n)).
Proof.
  destruct (handled w keep (outcome (exchange w tid n))) eqn:H.
  - unfold handled in H. unfold line_for.
    destruct (outcome (exchange w tid n)) as [st body|msg] eqn:Hx.
    + rewrite (call_on_response w u delay keep reuse tid rto cto n st body
                                Hx H).
      simpl. unfold sleep. destruct (Qle_bool 0 delay); simpl;
        repeat constructor.
    + rewrite (call_on_exception w u delay keep reuse tid rto cto n msg Hx).
      simpl. unfold sleep. destruct (Qle_bool 0 delay); simpl;
        repeat constructor.
  - destruct (call_unhandled w u delay keep reuse tid rto cto n H) as [-> _].
    repeat constructor.
Qed.

Lemma fetch_data_prints_its_lines (w : World) (u : string) (delay : Q)
    (keep reuse : bool) (tid q : Z) (rto cto : Q) :
  Forall (fun a => match a with
                   | Record_ l t =>
                       exists n, 0 <= n < q /\ l = line_for w tid n
                                 /\ t = elapsed_of w tid n
                   | _ => True
                   end)
         (trace (fetch_data w u delay keep reuse tid q rto cto)).
Proof.
  unfold fetch_data.
  assert (Hr : forall n, In n (range q) -> 0 <= n < q)
    by (intros n; apply range_bounds).
  induction (range q) as [|n l IH]; simpl; [constructor|].
  rewrite bind_trace. apply Forall_app. split.
  - eapply Forall_impl; [|apply call_prints_its_line].
    intros [r|ln t|d]; auto. intros [-> ->]. exists n.
    split; [apply Hr; left; reflexivity | auto].
  - destruct (exit_status _); [constructor|].
    apply IH. intros m Hm. apply Hr. right. exact Hm.
Qed.


(** ** Each thread in its own order *)

Lemma line_thread_line_for (w : World) (i n : Z) :
  line_thread (line_for w i n) = i.
Proof.
  unfold line_for. destruct (outcome (exchange w i n)); [|reflexivity].
  unfold classify. destruct (_ =? 200); reflexivity.
Qed.

(** The lines of a worker, however it ends, are the lines of the first
    [j] calls of its quota, for some [j]. *)
Lemma fetch_data_lines (w : World) (u : string) (delay : Q)
    (keep reuse : bool) (tid q : Z) (rto cto : Q) :
  exists j : nat,
    printed_by (trace (fetch_data w u delay keep reuse tid q rto cto))
    = map (line_for w tid) (firstn j (range q)).
Proof.
  unfold fetch_data. induction (range q) as [|n l [j IH]].
  - exists O. reflexivity.
  - cbn [for_each]. rewrite bind_trace. unfold printed_by in *.
    rewrite flat_map_app.
    destruct (handled w keep (outcome (exchange w tid n))) eqn:H.
    + assert (E : exists r,
                 call w u delay keep reuse tid rto cto n
                 = ([Get (request_of u reuse rto cto);
                     Record_ (line_for w tid n) (elapsed_of w tid n)]
                      ++ trace (sleep delay), r)
                 /\ r = exit_status (sleep delay)).
      { unfold handled in H. unfold line_for.
        destruct (outcome (exchange w tid n)) as [st body|msg] eqn:Hx.
        - rewrite (call_on_response w u delay keep reuse tid rto cto n st
                                    body Hx H). eauto.
        - rewrite (call_on_exception w u delay keep reuse tid rto cto n msg
                                     Hx). eauto. }
      destruct E as (r & -> & ->). unfold sleep.
      destruct (Qle_bool 0 delay); cbn.
      * exists (S j). rewrite IH. reflexivity.
      * exists 1%nat. reflexivity.
    + destruct (call_unhandled w u delay keep reuse tid rto cto n H)
        as [-> [E|E]]; rewrite E; exists O; reflexivity.
Qed.

Lemma prefix_is_firstn {A : Type} (a b l : list A) :
  a ++ b = l -> exists i : nat, a = firstn i l.
Proof.
  intros <-. exists (length a). induction a as [|x a IH]; [reflexivity|].
  cbn [length app firstn]. now rewrite <- IH.
Qed.

Lemma firstn_seq_min (n : nat) :
  forall start len : nat,
    firstn n (seq start len) = seq start (Nat.min n len).
Proof.
  induction n as [|n IH]; intros start [|len]; try reflexivity.
  cbn [Nat.min seq firstn]. now rewrite IH.
Qed.

Lemma filter_line_thread_own (k : Z) (l : list action) :
  Forall (fun a => match a with
                   | Record_ ln _ => line_thread ln = k
                   | _ => True
                   end) l ->
  filter (fun ln => line_thread ln =? k) (printed_by l) = printed_by l.
Proof.
  induction 1 as [|a l Ha _ IH]; [reflexivity|].
  unfold printed_by in *. cbn [flat_map]. rewrite filter_app, IH. f_equal.
  destruct a as [r|ln t|d]; try reflexivity.
  cbn [filter]. rewrite Ha, Z.eqb_refl. reflexivity.
Qed.

Lemma filter_line_thread_other (k j : Z) (a : action) :
  j <> k ->
  match a with Record_ ln _ => line_thread ln = j | _ => True end ->
  filter (fun ln => line_thread ln =? k) (printed_by [a]) = [].
Proof.
  intros Hne Ha. destruct a as [r|ln t|d]; try reflexivity.
  cbn. rewrite Ha. destruct (Z.eqb_spec j k); [contradiction | reflexivity].
Qed.

(** What every step keeps: thread for thread, the lines of that thread
    printed so far, followed by the lines it has still to print, are the
    lines it was started with; and a thread only prints lines that name
    it. *)
Lemma lines_in_order_step (ts0 : list Thread) (k : nat) (s s' : State) :
  step k s = Some s' ->
  (forall j t, nth_error (threads s) j = Some t ->
               thread_id t = Z.of_nat j
               /\ Forall (fun a => match a with
                                   | Record_ ln _ => line_thread ln = Z.of_nat j
                                   | _ => True
                                   end) (todo t)
               /\ exists t0,
                    nth_error ts0 j = Some t0
                    /\ filter (fun ln => line_thread ln =? Z.of_nat j)
                              (printed s)
                         ++ printed_by (todo t)
                       = printed_by (todo t0)) ->
  (forall j t, nth_error (threads s') j = Some t ->
               thread_id t = Z.of_nat j
               /\ Forall (fun a => match a with
                                   | Record_ ln _ => line_thread ln = Z.of_nat j
                                   | _ => True
                                   end) (todo t)
               /\ exists t0,
                    nth_error ts0 j = Some t0
                    /\ filter (fun ln => line_thread ln =? Z.of_nat j)
                              (printed s')
                         ++ printed_by (todo t)
                       = printed_by (todo t0)).
Proof.
  intros Hs I j tj Hj.
  apply step_effect in Hs as (t & a & rest & Hk & Ht & Hts & _ & _ & Hp).
  rewrite Hts in Hj. rewrite Hp, filter_app.
  destruct (I k t Hk) as (Hid & Hw & t0 & Hk0 & Hl).
  rewrite Ht in Hw. inversion Hw as [|? ? Ha Hrest]; subst.
  destruct (Nat.eq_dec j k) as [->|Hne].
  - rewrite (nth_error_set_thread _ _ _ _ Hk) in Hj. injection Hj as <-.
    cbn [thread_id todo]. split; [assumption|]. split; [assumption|].
    exists t0. split; [assumption|].
    rewrite <- Hl, Ht, <- app_assoc. f_equal.
    rewrite (filter_line_thread_own (Z.of_nat k) [a])
      by (constructor; [exact Ha | constructor]).
    unfold printed_by. cbn [flat_map]. now rewrite app_nil_r.
  - rewrite nth_error_set_thread_other in Hj by assumption.
    destruct (I j tj Hj) as (Hidj & Hwj & tj0 & Hj0 & Hlj).
    split; [assumption|]. split; [assumption|].
    exists tj0. split; [assumption|].
    rewrite (filter_line_thread_other (Z.of_nat j) (Z.of_nat k) a)
      by (lia || exact Ha).
    rewrite app_nil_r. exact Hlj.
Qed.

(** X13. At every moment of every run, the lines printed so far by thread
    [k], in the order they were printed, are the lines of its calls 0,
    1, ..., m-1 for some m within its quota: a worker's lines come out in
    the order of its calls, with no call skipped or repeated, however the
    threads interleave. *)
Theorem lines_of_a_thread_in_call_order :
  forall (w : World) (c : Config) (schedule : list nat) (s0 : State)
         (k : nat) (t : Thread),
    start_all w c = inr s0 ->
    nth_error (threads s0) k = Some t ->
    exists m : nat,
      (m <= Z.to_nat (num_calls t))%nat
      /\ filter (fun ln => line_thread ln =? Z.of_nat k)
                (printed (exec schedule s0))
         = map (line_for w (Z.of_nat k)) (map Z.of_nat (seq 0 m)).
Proof.
  intros w c schedule s0 k t H0 Hk.
  apply start_all_inv in H0 as [_ ->]. cbn [threads fresh] in Hk.
  set (ts0 := map _ (range (num_threads c))) in *.
  assert (Hid : forall j tj, nth_error ts0 j = Some tj ->
                             tj = start_thread w c
                                    (total_calls c / num_threads c)
                                    (total_calls c mod num_threads c)
                                    (Z.of_nat j)).
  { intros j tj Hj. unfold ts0 in Hj. rewrite nth_error_map in Hj.
    destruct (nth_error (range (num_threads c)) j) as [i|] eqn:Hi;
      [|discriminate].
    injection Hj as <-. apply range_nth_error in Hi as [-> _]. reflexivity. }
  assert (I : forall j tj,
             nth_error (threads (exec schedule (fresh ts0))) j = Some tj ->
             thread_id tj = Z.of_nat j
             /\ Forall (fun a => match a with
                                 | Record_ ln _ => line_thread ln = Z.of_nat j
                                 | _ => True
                                 end) (todo tj)
             /\ exists t0,
                  nth_error ts0 j = Some t0
                  /\ filter (fun ln => line_thread ln =? Z.of_nat j)
                            (printed (exec schedule (fresh ts0)))
                       ++ printed_by (todo tj)
                     = printed_by (todo t0)).
  { apply (exec_invariant
             (fun s => forall j tj,
                  nth_error (threads s) j = Some tj ->
                  thread_id tj = Z.of_nat j
                  /\ Forall (fun a =>
                               match a with
                               | Record_ ln _ => line_thread ln = Z.of_nat j
                               | _ => True
                               end) (todo tj)
                  /\ exists t0,
                       nth_error ts0 j = Some t0
                       /\ filter (fun ln => line_thread ln =? Z.of_nat j)
                                 (printed s)
                            ++ printed_by (todo tj)
                          = printed_by (todo t0))).
    - intros k' s s'. apply lines_in_order_step.
    - intros j tj Hj. cbn [threads fresh printed] in *.
      pose proof (Hid j tj Hj) as ->. split; [reflexivity|]. split.
      + eapply Forall_impl;
          [|apply (fetch_data_prints_its_lines w (url c) (sleep_time c)
                     (keep_connects_open c) (reuse_connects c) (Z.of_nat j)
                     (num_calls_this_thread (total_calls c / num_threads c)
                        (total_calls c mod num_threads c) (Z.of_nat j))
                     (request_time_out c) (connect_time_out c))].
        intros [r|ln tm|d]; auto.
        intros (n & _ & -> & _). apply line_thread_line_for.
      + eexists. split; [exact Hj | reflexivity]. }
  assert (Hlen : length (threads (exec schedule (fresh ts0))) = length ts0).
  { apply (exec_invariant (fun s => length (threads s) = length ts0));
      [|reflexivity].
    intros k' s s' Hs E. apply step_effect in Hs as (? & ? & ? & _ & _ & -> & _).
    now rewrite length_set_thread. }
  destruct (nth_error (threads (exec schedule (fresh ts0))) k) as [tk|] eqn:Hk'.
  2:{ apply nth_error_None in Hk'.
      assert (k < length ts0)%nat by (apply nth_error_Some; congruence). lia. }
  destruct (I k tk Hk') as (_ & _ & t0 & Hk0 & Hl).
  rewrite Hk in Hk0. injection Hk0 as <-.
  pose proof (Hid k t Hk) as Et.
  destruct (fetch_data_lines w (url c) (sleep_time c) (keep_connects_open c)
              (reuse_connects c) (Z.of_nat k) (num_calls t)
              (request_time_out c) (connect_time_out c)) as [j Hj].
  assert (Etodo : todo t
                  = trace (fetch_data w (url c) (sleep_time c)
                             (keep_connects_open c) (reuse_connects c)
                             (Z.of_nat k) (num_calls t)
                             (request_time_out c) (connect_time_out c))).
  { rewrite Et at 1. rewrite Et at 1. reflexivity. }
  rewrite Etodo, Hj in Hl.
  destruct (prefix_is_firstn _ _ _ Hl) as [i Hi]. rewrite Hi.
  unfold range.
  rewrite firstn_map, firstn_firstn, firstn_map, firstn_seq_min.
  eexists. split; [|reflexivity]. lia.
Qed.


(** ** The further properties at sample inputs *)

(** A delay of -5 ms and a quota of three calls. *)
Lemma negative_delay_stops_after_first_call_witness :
  1 <= 3 /\ (-5 # 1000 < 0)%Q
  /\ exit_status (fetch_data (steady_world (Response 200 ok_body) 0 1)
                             "http://localhost/" (-5 # 1000) false false 0 3
                             10 30)
     = inl ValueError.
Proof.
  split; [lia|]. split; [reflexivity|].
  apply (negative_delay_stops_after_first_call
           (steady_world (Response 200 ok_body) 0 1)
           "http://localhost/" (-5 # 1000) false false 0 10 30 3);
    [lia | reflexivity | reflexivity].
Defined.

(** The first bytes of a JPEG file. *)
Lemma binary_body_ends_call_witness :
  call (steady_world (Response 200 [xff; xd8; xff; xe0]) 0 1)
       "http://localhost/" 0 false false 0 10 30 0
  = ([Get (request_of "http://localhost/" false 10 30)],
     inl UnicodeDecodeError).
Proof.
  apply (binary_body_ends_call
           (steady_world (Response 200 [xff; xd8; xff; xe0]) 0 1)
           "http://localhost/" 0 false 0 10 30 0 200 [xff; xd8; xff; xe0]).
  - reflexivity.
  - apply Exists_cons_hd. vm_compute. discriminate.
Defined.

Lemma ascii_body_is_drained_witness :
  drained (steady_world (Response 200 ok_body) 0 1) false ok_body = true
  /\ decode_utf8 ok_body = Some [104; 105]%N.
Proof.
  apply (ascii_body_is_drained
           (steady_world (Response 200 ok_body) 0 1) false ok_body).
  - repeat constructor.
  - reflexivity.
Defined.

(** Two workers, three calls, the second worker running first. *)
Lemma printed_lines_match_recorded_times_witness :
  map time_of_line
      (printed (exec [1; 0; 1; 0; 0]%nat
                     (fresh (map (start_thread
                                    (steady_world (Response 200 ok_body) 0 1)
                                    (sample_config 3 2) 1 1)
                                 (range 2)))))
  = response_times
      (exec [1; 0; 1; 0; 0]%nat
            (fresh (map (start_thread
                           (steady_world (Response 200 ok_body) 0 1)
                           (sample_config 3 2) 1 1)
                        (range 2)))).
Proof.
  apply (printed_lines_match_recorded_times
           (steady_world (Response 200 ok_body) 0 1) (sample_config 3 2)
           [1; 0; 1; 0; 0]%nat).
  reflexivity.
Defined.

(** Four calls over two workers whose first body does not decode: two
    requests, nothing recorded. *)
Lemma never_more_than_total_calls_witness :
  Z.of_nat
    (performed is_get
       (exec [0; 1; 0; 1]%nat
             (started (steady_world (Response 200 latin1_body) 0 1)
                      (sample_config 4 2))))
  <= 4
  /\ Z.of_nat
       (length
          (response_times
             (exec [0; 1; 0; 1]%nat
                   (started (steady_world (Response 200 latin1_body) 0 1)
                            (sample_config 4 2)))))
     <= 4
  /\ (joined (exec [0; 1; 0; 1]%nat
                   (started (steady_world (Response 200 latin1_body) 0 1)
                            (sample_config 4 2)))
      = true ->
      (length
         (response_times
            (exec [0; 1; 0; 1]%nat
                  (started (steady_world (Response 200 latin1_body) 0 1)
                           (sample_config 4 2))))
       <= performed is_get
            (exec [0; 1; 0; 1]%nat
                  (started (steady_world (Response 200 latin1_body) 0 1)
                           (sample_config 4 2))))%nat).
Proof.
  apply (never_more_than_total_calls
           (steady_world (Response 200 latin1_body) 0 1) (sample_config 4 2)
           [0; 1; 0; 1]%nat
           (started (steady_world (Response 200 latin1_body) 0 1)
                    (sample_config 4 2)));
    [simpl; lia | simpl; lia | reflexivity].
Defined.

Lemma recorded_times_nonnegative_witness :
  Forall (fun t => (0 <= t)%Q)
         (response_times
            (exec [0; 1; 0; 1; 0; 1]%nat
                  (started (steady_world (Response 200 ok_body) 0 1)
                           (sample_config 2 2)))).
Proof.
  apply (recorded_times_nonnegative
           (steady_world (Response 200 ok_body) 0 1) (sample_config 2 2)
           [0; 1; 0; 1; 0; 1]%nat).
  - intros i n. simpl. discriminate.
  - reflexivity.
Defined.

(** Two calls over five workers. *)
Lemma surplus_workers_idle_witness :
  0 <= 2 < 5
  /\ exists s,
       start_all (steady_world (Response 200 ok_body) 0 1) (sample_config 2 5)
       = inr s
       /\ Z.of_nat (length (threads s)) = 5
       /\ forall (k : nat) (t : Thread),
            nth_error (threads s) k = Some t ->
            (Z.of_nat k < 2 ->
             num_calls t = 1 /\ count is_get (todo t) = 1%nat)
            /\ (2 <= Z.of_nat k ->
                num_calls t = 0 /\ todo t = [] /\ dies_of t = None).
Proof.
  split; [lia|].
  apply (surplus_workers_idle
           (steady_world (Response 200 ok_body) 0 1) (sample_config 2 5)).
  simpl. lia.
Defined.

Lemma parse_options_app_witness :
  parse_options decimal_builtins
                (["-totalCalls"; "5"]%string
                   ++ ["-numThreads"; "2"; "-reuseConnects"]%string)
                (defaults "http://localhost/")
  = match parse_options decimal_builtins ["-totalCalls"; "5"]%string
                        (defaults "http://localhost/") with
    | inl m => inl m
    | inr c' =>
        parse_options decimal_builtins
                      ["-numThreads"; "2"; "-reuseConnects"]%string c'
    end.
Proof.
  apply (parse_options_app decimal_builtins ["-totalCalls"; "5"]%string
                           ["-numThreads"; "2"; "-reuseConnects"]%string
                           (defaults "http://localhost/")).
  reflexivity.
Defined.

Lemma unknown_option_ignored_witness :
  parse_options decimal_builtins
                ["-verbose"; "-totalCalls"; "5"; "7"]%string
                (defaults "http://localhost/")
  = parse_options decimal_builtins ["5"; "7"]%string
                  (defaults "http://localhost/")
  /\ parse_options decimal_builtins ["-verbose"]%string
                   (defaults "http://localhost/")
     = inr (defaults "http://localhost/").
Proof.
  apply (unknown_option_ignored decimal_builtins "-verbose" "-totalCalls"
                                ["5"; "7"]%string
                                (defaults "http://localhost/")).
  unfold known_options, valued_options. cbn [app In].
  intros H. decompose [or] H; try discriminate; assumption.
Defined.

Lemma run_needs_http_url_witness :
  exists c : Config,
    parse_argv decimal_builtins
               ["api-tester.py"; "https://example.org/"; "-totalCalls"; "5"]%string
    = Run c
    /\ exists (program : string) (args : list string),
         ["api-tester.py"; "https://example.org/"; "-totalCalls"; "5"]%string
         = program :: url c :: args
         /\ startswith (url c) "http" = true
         /\ parse_options decimal_builtins args (defaults (url c)) = inr c.
Proof.
  eexists. split; [reflexivity|].
  apply (run_needs_http_url
           decimal_builtins
           ["api-tester.py"; "https://example.org/"; "-totalCalls"; "5"]%string).
  reflexivity.
Defined.

(** A request time-out of half a second leaves the connection time-out at
    30 seconds. *)
Lemma connect_time_out_default_is_fixed_witness :
  exists c : Config,
    parse_argv decimal_builtins
               ["api-tester.py"; "http://localhost/"; "-requestTimeOut"; "500"]%string
    = Run c
    /\ (request_time_out c == 1 # 2)%Q
    /\ connect_time_out c = 30%Q.
Proof.
  eexists. split; [reflexivity|]. split; [reflexivity|].
  apply (connect_time_out_default_is_fixed
           decimal_builtins "api-tester.py" "http://localhost/"
           ["-requestTimeOut"; "500"]%string).
  - reflexivity.
  - cbn [In]. intros H. decompose [or] H; try discriminate; assumption.
Defined.

Lemma later_total_calls_wins_witness :
  parse_options decimal_builtins
                (["-totalCalls"; "5"; "-numThreads"; "2"]%string
                   ++ ["-totalCalls"; "7"]%string)
                (defaults "http://localhost/")
  = inr {| url := "http://localhost/"; total_calls := 7; num_threads := 2;
           sleep_time := 0; request_time_out := 10;
           connect_time_out := 10 * 3; reuse_connects := false;
           keep_connects_open := false |}.
Proof.
  apply (later_total_calls_wins
           decimal_builtins ["-totalCalls"; "5"; "-numThreads"; "2"]%string
           "7" 7 (defaults "http://localhost/")
           {| url := "http://localhost/"; total_calls := 5; num_threads := 2;
              sleep_time := 0; request_time_out := 10;
              connect_time_out := 10 * 3; reuse_connects := false;
              keep_connects_open := false |});
    reflexivity.
Defined.


(** Two calls that succeed, delay 0. *)
Lemma fetch_data_returns_only_if_witness :
  exit_status (fetch_data (steady_world (Response 200 ok_body) 0 1)
                          "http://localhost/" 0 false false 0 2 10 30)
  = inr tt
  /\ (0 <= 0)%Q
  /\ handled (steady_world (Response 200 ok_body) 0 1) false
             (outcome (exchange (steady_world (Response 200 ok_body) 0 1)
                                0 1))
     = true.
Proof.
  split; [reflexivity|].
  apply (fetch_data_returns_only_if
           (steady_world (Response 200 ok_body) 0 1)
           "http://localhost/" 0 false false 0 10 30 2);
    [reflexivity | lia].
Defined.


(** Thread 0 of two, after both have made their first call. *)
Lemma lines_of_a_thread_in_call_order_witness :
  exists m : nat,
    (m <= Z.to_nat 2)%nat
    /\ filter (fun ln => line_thread ln =? 0)
              (printed (exec [1; 0; 1; 0; 0; 0]%nat
                             (started (steady_world (Response 404 ok_body) 0 1)
                                      (sample_config 3 2))))
       = map (line_for (steady_world (Response 404 ok_body) 0 1) 0)
             (map Z.of_nat (seq 0 m)).
Proof.
  apply (lines_of_a_thread_in_call_order
           (steady_world (Response 404 ok_body) 0 1) (sample_config 3 2)
           [1; 0; 1; 0; 0; 0]%nat
           (started (steady_world (Response 404 ok_body) 0 1)
                    (sample_config 3 2))
           0%nat
           (start_thread (steady_world (Response 404 ok_body) 0 1)
                         (sample_config 3 2) 1 1 0));
    reflexivity.
Defined.

(** [-totalCalls 1.5]: [float] reads the value, [int] does not. *)
Lemma missing_value_is_an_error_witness :
  py_float decimal_point_builtins "1.5" = Some (3 # 2)
  /\ parse_options decimal_point_builtins
                   (["-numThreads"; "4"]%string
                      ++ ["-totalCalls"; "1.5"; "-reuseConnects"]%string)
                   (defaults "http://localhost/")
     = inl "Error: -totalCalls must be followed by an integer."%string.
Proof.
  split; [reflexivity|].
  apply (missing_value_is_an_error
           decimal_point_builtins "-totalCalls" ["-numThreads"; "4"]%string
           (defaults "http://localhost/")
           {| url := "http://localhost/"; total_calls := 10000;
              num_threads := 4; sleep_time := 0; request_time_out := 10;
              connect_time_out := 10 * 3; reuse_connects := false;
              keep_connects_open := false |}).
  - left. reflexivity.
  - reflexivity.
  - reflexivity.
  - reflexivity.
Defined.

(** [total_calls = -4] over three workers: quotas -1, -1, -2. *)
Lemma negative_total_makes_no_call_witness :
  -4 < 0 /\ 1 <= 3
  /\ exists s0 : State,
       start_all (steady_world (Response 200 ok_body) 0 1)
                 (sample_config (-4) 3)
       = inr s0
       /\ Z.of_nat (length (threads s0)) = 3
       /\ Forall (fun t => num_calls t <= 0 /\ todo t = []
                           /\ dies_of t = None) (threads s0)
       /\ joined (exec [2; 0; 1]%nat s0) = true
       /\ history (exec [2; 0; 1]%nat s0) = []
       /\ printed (exec [2; 0; 1]%nat s0) = []
       /\ response_times (exec [2; 0; 1]%nat s0) = [].
Proof.
  split; [lia|]. split; [lia|].
  apply (negative_total_makes_no_call
           (steady_world (Response 200 ok_body) 0 1) (sample_config (-4) 3)
           [2; 0; 1]%nat);
    simpl; lia.
Defined.
